(** * AI-Resume-Analyzer: text extraction and reply parsing of [app.py]

    A shallow embedding of the two functions of [src/app.py] that carry
    logic, [extract_text_from_pdf] and [analyze_resume], together with the
    library routines they call ([str.strip], [re.search] on the pattern of
    line 77, [json.loads]), and the properties the specification states
    about them. *)

From Stdlib Require Import List NArith ZArith Bool String Ascii Lia.
Import ListNotations.

(** ** Python strings

    A Python [str] is a sequence of Unicode code points. *)

Definition char := N.
Definition pystr := list char.

(** An ASCII literal as a Python string. *)
Definition py (s : string) : pystr := map N_of_ascii (list_ascii_of_string s).

Definition char_eqb (a b : char) : bool := N.eqb a b.

Fixpoint pystr_eqb (a b : pystr) : bool :=
  match a, b with
  | [], [] => true
  | x :: a', y :: b' => char_eqb x y && pystr_eqb a' b'
  | _, _ => false
  end.

(** [str.isspace] for one code point: the characters [str.strip()] removes. *)
Definition isspace (c : char) : bool :=
  ((9 <=? c) && (c <=? 13) || (28 <=? c) && (c <=? 32)
   || (c =? 133) || (c =? 160) || (c =? 5760)
   || (8192 <=? c) && (c <=? 8202)
   || (c =? 8232) || (c =? 8233) || (c =? 8239) || (c =? 8287)
   || (c =? 12288))%N.

Fixpoint lstrip (s : pystr) : pystr :=
  match s with
  | c :: s' => if isspace c then lstrip s' else s
  | [] => []
  end.

Definition rstrip (s : pystr) : pystr := rev (lstrip (rev s)).

(** [s.strip()] *)
Definition strip (s : pystr) : pystr := rstrip (lstrip s).

(** Truth value of a string: [if s:] *)
Definition nonempty (s : pystr) : bool :=
  match s with [] => false | _ :: _ => true end.

(** Only whitespace. *)
Definition blank (s : pystr) : bool := forallb isspace s.

(** A string [strip] leaves alone: no whitespace at either end. *)
Definition trimmed (s : pystr) : bool :=
  match s with
  | [] => true
  | c :: _ => negb (isspace c) && negb (isspace (last s c))
  end.

(** ** The outside world of [extract_text_from_pdf]

    Every call into pdfplumber, pdf2image and pytesseract either returns a
    value or raises. *)

Inductive outcome (A : Type) : Type :=
| Ret (a : A)
| Raise.
Arguments Ret {A} a.
Arguments Raise {A}.

(** What [page.extract_text()] can hand back: [None] or a string. *)
Definition pyval := option pystr.

Definition truthy (v : pyval) : bool :=
  match v with Some s => nonempty s | None => false end.

Record page := { extract_text : outcome pyval }.
Record image := { image_to_string : outcome pystr }.

Record world := {
  pdfplumber_open : pystr -> outcome (list page);
  convert_from_path : pystr -> outcome (list image)
}.

(** The library calls the function makes, in the order it makes them. *)
Inductive call : Type :=
| Called_pdfplumber_open
| Called_extract_text
| Called_convert_from_path
| Called_image_to_string.

Definition is_ocr_call (c : call) : bool :=
  match c with
  | Called_convert_from_path | Called_image_to_string => true
  | _ => false
  end.

(** ** Statements

    The body of [extract_text_from_pdf] updates the local variable [text],
    calls libraries that may raise, catches with [try/except] and leaves
    through [return].  A statement maps the frame before to a completion
    and the frame after; an exception leaves the frame as it was when it
    was raised. *)

Record frame := { text : pystr; calls : list call }.

Inductive completion (A : Type) : Type :=
| Normal (a : A)
| Raised
| Returned (v : pystr).
Arguments Normal {A} a.
Arguments Raised {A}.
Arguments Returned {A} v.

Definition stmt (A : Type) : Type := frame -> completion A * frame.

Definition ret {A} (a : A) : stmt A := fun f => (Normal a, f).

Definition bind {A B} (m : stmt A) (k : A -> stmt B) : stmt B :=
  fun f =>
    match m f with
    | (Normal a, f') => k a f'
    | (Raised, f') => (Raised, f')
    | (Returned v, f') => (Returned v, f')
    end.

Declare Scope stmt_scope.
Delimit Scope stmt_scope with stmt.
Notation "x <- m ;; k" := (bind m (fun x => k))
  (at level 61, m at next level, right associativity) : stmt_scope.
Notation "m ;; k" := (bind m (fun _ => k))
  (at level 61, right associativity) : stmt_scope.
Local Open Scope stmt_scope.

Definition pass : stmt unit := ret tt.

(** [return v] *)
Definition return_ (v : pystr) : stmt unit := fun f => (Returned v, f).

Definition raise_ {A} : stmt A := fun f => (Raised, f).

(** A library call: it is recorded, then returns or raises. *)
Definition external {A} (c : call) (o : outcome A) : stmt A :=
  fun f =>
    let f' := {| text := text f; calls := calls f ++ [c] |} in
    match o with
    | Ret a => (Normal a, f')
    | Raise => (Raised, f')
    end.

Definition get_text : stmt pystr := fun f => (Normal (text f), f).

Definition set_text (s : pystr) : stmt unit :=
  fun f => (Normal tt, {| text := s; calls := calls f |}).

(** [text += v]; adding [None] to a string is a [TypeError]. *)
Definition add_text (v : pyval) : stmt unit :=
  match v with
  | Some s => fun f => (Normal tt, {| text := text f ++ s; calls := calls f |})
  | None => raise_
  end.

(** [try: body  except: handler] with a bare [except]. *)
Definition try_except (body handler : stmt unit) : stmt unit :=
  fun f =>
    match body f with
    | (Raised, f') => handler f'
    | r => r
    end.

(** [for x in xs: body] *)
Fixpoint for_each {X} (xs : list X) (body : X -> stmt unit) : stmt unit :=
  match xs with
  | [] => pass
  | x :: xs' => body x ;; for_each xs' body
  end.

Definition when (b : bool) (s : stmt unit) : stmt unit :=
  if b then s else pass.

(** ** [extract_text_from_pdf] (app.py, lines 15-35) *)

Definition text_layer_stage (w : world) (pdf_path : pystr) : stmt unit :=
  pdf_pages <- external Called_pdfplumber_open (pdfplumber_open w pdf_path) ;;
  for_each pdf_pages (fun page =>
    t <- external Called_extract_text (extract_text page) ;;
    when (truthy t)
      (t' <- external Called_extract_text (extract_text page) ;;
       add_text t')) ;;
  t <- get_text ;;
  when (nonempty (strip t)) (return_ t).

Definition ocr_stage (w : world) (pdf_path : pystr) : stmt unit :=
  images <- external Called_convert_from_path (convert_from_path w pdf_path) ;;
  for_each images (fun img =>
    s <- external Called_image_to_string (image_to_string img) ;;
    add_text (Some s)).

Definition extract_text_from_pdf_body (w : world) (pdf_path : pystr) : stmt unit :=
  set_text [] ;;
  try_except (text_layer_stage w pdf_path) pass ;;
  try_except (ocr_stage w pdf_path) pass ;;
  t <- get_text ;;
  return_ (strip t).

(** Calling the function: a fresh frame; the value is the one of [return],
    [None] when the body ends without one, and an uncaught exception
    propagates. *)
Definition call_function (body : stmt unit) : outcome pyval * list call :=
  match body {| text := []; calls := [] |} with
  | (Returned v, f) => (Ret (Some v), calls f)
  | (Normal _, f) => (Ret None, calls f)
  | (Raised, f) => (Raise, calls f)
  end.

Definition extract_text_from_pdf (w : world) (pdf_path : pystr)
  : outcome pyval * list call :=
  call_function (extract_text_from_pdf_body w pdf_path).

(** ** What each stage produces

    Pure summaries of the two stages, used to state the properties: the
    text a stage has appended to [text] when it stops (at its end or at the
    first call that raises), whether it reached its end, and the calls it
    made. *)

Definition page_text (v : pyval) : pystr :=
  match v with Some s => s | None => [] end.

Fixpoint pages_text (ps : list page) : pystr :=
  match ps with
  | [] => []
  | p :: ps' =>
      match extract_text p with
      | Raise => []
      | Ret v => page_text v ++ pages_text ps'
      end
  end.

Fixpoint pages_complete (ps : list page) : bool :=
  match ps with
  | [] => true
  | p :: ps' =>
      match extract_text p with
      | Raise => false
      | Ret _ => pages_complete ps'
      end
  end.

Fixpoint pages_calls (ps : list page) : list call :=
  match ps with
  | [] => []
  | p :: ps' =>
      match extract_text p with
      | Raise => [Called_extract_text]
      | Ret v =>
          (if truthy v then [Called_extract_text; Called_extract_text]
           else [Called_extract_text]) ++ pages_calls ps'
      end
  end.

Fixpoint images_text (imgs : list image) : pystr :=
  match imgs with
  | [] => []
  | i :: imgs' =>
      match image_to_string i with
      | Raise => []
      | Ret s => s ++ images_text imgs'
      end
  end.

Fixpoint images_complete (imgs : list image) : bool :=
  match imgs with
  | [] => true
  | i :: imgs' =>
      match image_to_string i with
      | Raise => false
      | Ret _ => images_complete imgs'
      end
  end.

Fixpoint images_calls (imgs : list image) : list call :=
  match imgs with
  | [] => []
  | i :: imgs' =>
      Called_image_to_string ::
      match image_to_string i with
      | Raise => []
      | Ret _ => images_calls imgs'
      end
  end.

(** Text appended by lines 18-21 before they end or raise. *)
Definition text_layer_partial (w : world) (pdf_path : pystr) : pystr :=
  match pdfplumber_open w pdf_path with
  | Raise => []
  | Ret ps => pages_text ps
  end.

(** The text-layer stage as a whole: the concatenated page text when every
    call of lines 18-21 returned, [Raise] when one of them raised. *)
Definition text_layer (w : world) (pdf_path : pystr) : outcome pystr :=
  match pdfplumber_open w pdf_path with
  | Raise => Raise
  | Ret ps => if pages_complete ps then Ret (pages_text ps) else Raise
  end.

Definition text_layer_calls (w : world) (pdf_path : pystr) : list call :=
  Called_pdfplumber_open ::
  match pdfplumber_open w pdf_path with
  | Raise => []
  | Ret ps => pages_calls ps
  end.

(** Text appended by lines 29-31 before they end or raise. *)
Definition ocr_partial (w : world) (pdf_path : pystr) : pystr :=
  match convert_from_path w pdf_path with
  | Raise => []
  | Ret imgs => images_text imgs
  end.

(** The OCR stage as a whole. *)
Definition ocr_layer (w : world) (pdf_path : pystr) : outcome pystr :=
  match convert_from_path w pdf_path with
  | Raise => Raise
  | Ret imgs => if images_complete imgs then Ret (images_text imgs) else Raise
  end.

Definition ocr_calls (w : world) (pdf_path : pystr) : list call :=
  Called_convert_from_path ::
  match convert_from_path w pdf_path with
  | Raise => []
  | Ret imgs => images_calls imgs
  end.

(** "The stage yielded nothing": it raised, or what it produced is empty
    or whitespace only. *)
Definition yields_nothing (o : outcome pystr) : bool :=
  match o with
  | Raise => true
  | Ret t => negb (nonempty (strip t))
  end.

(** The OCR stage was entered. *)
Definition ocr_invoked (log : list call) : bool := existsb is_ocr_call log.

(** ** [re.search(r"\{[\s\S]*\}", s)] (app.py, line 77)

    The pattern is a sequence of items, each a character set or a greedy
    starred character set.  [match_here] is the backtracking matcher
    anchored at the start of its input; [re_search] tries every start
    position from left to right and yields the text of the first match
    ([json_match.group()]). *)

Definition ch (a : ascii) : char := N_of_ascii a.

Definition is_char (a : ascii) (c : char) : bool := char_eqb c (ch a).

Inductive item : Type :=
| One (p : char -> bool)
| Many (p : char -> bool).

Definition regex := list item.

Fixpoint match_here (re : regex) : pystr -> option pystr :=
  match re with
  | [] => fun _ => Some []
  | One p :: re' =>
      fun s =>
        match s with
        | c :: s' =>
            if p c then option_map (cons c) (match_here re' s') else None
        | [] => None
        end
  | Many p :: re' =>
      fix star (s : pystr) : option pystr :=
        match s with
        | c :: s' =>
            if p c then
              match star s' with
              | Some m => Some (c :: m)
              | None => match_here re' s
              end
            else match_here re' s
        | [] => match_here re' []
        end
  end.

Fixpoint re_search (re : regex) (s : pystr) : option pystr :=
  match match_here re s with
  | Some m => Some m
  | None =>
      match s with
      | [] => None
      | _ :: s' => re_search re s'
      end
  end.

(** [\{[\s\S]*\}] *)
Definition brace_pattern : regex :=
  [One (is_char "{"); Many (fun c => isspace c || negb (isspace c));
   One (is_char "}")].

(** The substring in the words of the specification: from the first
    opening brace to the last closing brace after it. *)
Fixpoint from_first (a : ascii) (s : pystr) : option pystr :=
  match s with
  | [] => None
  | c :: s' => if is_char a c then Some s else from_first a s'
  end.

Fixpoint upto_last (a : ascii) (s : pystr) : option pystr :=
  match s with
  | [] => None
  | c :: s' =>
      match upto_last a s' with
      | Some m => Some (c :: m)
      | None => if is_char a c then Some [c] else None
      end
  end.

Definition first_brace_to_last_brace (s : pystr) : option pystr :=
  match from_first "{" s with
  | Some (c :: s') => option_map (cons c) (upto_last "}" s')
  | _ => None
  end.

(** ** [json.loads]

    The decoder of the standard library ([json/decoder.py] and
    [json/scanner.py]) on the remaining input instead of an index.  A float
    is kept as the text [float()] would be given; integers are unbounded
    and documents may nest to any depth (the interpreter's limits on the
    digits of an integer and on recursion are not part of the model). *)

Inductive pyfloat : Type :=
| Float_of (lexeme : pystr)
| NaN
| PosInf
| NegInf.

#[warnings="-register-all"]
Inductive pyobj : Type :=
| PyNone
| PyBool (b : bool)
| PyInt (z : Z)
| PyFloat (f : pyfloat)
| PyStr (s : pystr)
| PyList (l : list pyobj)
| PyDict (d : list (pystr * pyobj)).

(** A [dict] keeps the position of the first insertion of a key and the
    value of the last. *)
Fixpoint dict_set (d : list (pystr * pyobj)) (k : pystr) (v : pyobj)
  : list (pystr * pyobj) :=
  match d with
  | [] => [(k, v)]
  | (k', v') :: d' =>
      if pystr_eqb k' k then (k', v) :: d' else (k', v') :: dict_set d' k v
  end.

Definition dict_of_pairs (pairs : list (pystr * pyobj)) : list (pystr * pyobj) :=
  fold_left (fun d kv => dict_set d (fst kv) (snd kv)) pairs [].

Fixpoint dict_get (d : list (pystr * pyobj)) (k : pystr) : option pyobj :=
  match d with
  | [] => None
  | (k', v) :: d' => if pystr_eqb k' k then Some v else dict_get d' k
  end.

Definition dquote : char := 34%N.

(** [WHITESPACE = re.compile(r'[ \t\n\r]*')] *)
Definition is_json_ws (c : char) : bool :=
  ((c =? 32) || (c =? 9) || (c =? 10) || (c =? 13))%N.

Fixpoint skip_ws (s : pystr) : pystr :=
  match s with
  | c :: s' => if is_json_ws c then skip_ws s' else s
  | [] => []
  end.

(** [s[idx:idx+len(lit)] == lit], with what follows. *)
Fixpoint starts_with (lit s : pystr) : option pystr :=
  match lit, s with
  | [], _ => Some s
  | a :: lit', c :: s' => if char_eqb a c then starts_with lit' s' else None
  | _ :: _, [] => None
  end.

(** *** Numbers ([NUMBER_RE]): an optional minus sign, then 0 or a
    non-zero digit and more digits; an optional fraction; an optional
    exponent. *)

Definition is_digit (c : char) : bool := ((48 <=? c) && (c <=? 57))%N.

Fixpoint digits (s : pystr) : pystr * pystr :=
  match s with
  | c :: s' =>
      if is_digit c then let (d, r) := digits s' in (c :: d, r) else ([], s)
  | [] => ([], [])
  end.

Definition match_integer (s : pystr) : option (pystr * pystr) :=
  let (sign, s1) :=
    match s with
    | c :: s' => if is_char "-" c then ([c], s') else ([], s)
    | [] => ([], s)
    end in
  match s1 with
  | c :: s2 =>
      if is_char "0" c then Some (sign ++ [c], s2)
      else if is_digit c then let (d, r) := digits s2 in Some (sign ++ c :: d, r)
      else None
  | [] => None
  end.

Definition match_frac (s : pystr) : option (pystr * pystr) :=
  match s with
  | c :: s' =>
      if is_char "." c then
        match digits s' with
        | (d0 :: d, r) => Some (c :: d0 :: d, r)
        | ([], _) => None
        end
      else None
  | [] => None
  end.

Definition match_exp (s : pystr) : option (pystr * pystr) :=
  match s with
  | c :: s' =>
      if is_char "e" c || is_char "E" c then
        let (sign, s1) :=
          match s' with
          | c' :: s'' =>
              if is_char "-" c' || is_char "+" c' then ([c'], s'') else ([], s')
          | [] => ([], s')
          end in
        match digits s1 with
        | (d0 :: d, r) => Some (c :: sign ++ d0 :: d, r)
        | ([], _) => None
        end
      else None
  | [] => None
  end.

Definition digit_val (c : char) : Z := Z.of_N (c - 48).

Definition decimal (ds : pystr) : Z :=
  fold_left (fun a d => (10 * a + digit_val d)%Z) ds 0%Z.

(** [int(integer)] *)
Definition int_of (lexeme : pystr) : Z :=
  match lexeme with
  | c :: ds => if is_char "-" c then (- decimal ds)%Z else decimal lexeme
  | [] => 0%Z
  end.

Definition match_number (s : pystr) : option (pyobj * pystr) :=
  match match_integer s with
  | None => None
  | Some (integer, r0) =>
      let (frac, r1) :=
        match match_frac r0 with Some (f, r) => (f, r) | None => ([], r0) end in
      let (exp, r2) :=
        match match_exp r1 with Some (e, r) => (e, r) | None => ([], r1) end in
      if nonempty frac || nonempty exp
      then Some (PyFloat (Float_of (integer ++ frac ++ exp)), r2)
      else Some (PyInt (int_of integer), r2)
  end.

(** *** Strings: [scanstring], entered after the opening quote *)

Definition hex_val (c : char) : option N :=
  if is_digit c then Some (c - 48)%N
  else if ((97 <=? c) && (c <=? 102))%N then Some (c - 87)%N
  else if ((65 <=? c) && (c <=? 70))%N then Some (c - 55)%N
  else None.

(** [_decode_uXXXX] *)
Definition decode_uXXXX (a b c d : char) : option N :=
  match hex_val a, hex_val b, hex_val c, hex_val d with
  | Some w, Some x, Some y, Some z => Some (((w * 16 + x) * 16 + y) * 16 + z)%N
  | _, _, _, _ => None
  end.

Definition BACKSLASH (esc : char) : option char :=
  if char_eqb esc dquote then Some dquote
  else if is_char "\" esc then Some (ch "\")
  else if is_char "/" esc then Some (ch "/")
  else if is_char "b" esc then Some 8%N
  else if is_char "f" esc then Some 12%N
  else if is_char "n" esc then Some 10%N
  else if is_char "r" esc then Some 13%N
  else if is_char "t" esc then Some 9%N
  else None.

Definition high_surrogate (u : N) : bool := ((55296 <=? u) && (u <=? 56319))%N.
Definition low_surrogate (u : N) : bool := ((56320 <=? u) && (u <=? 57343))%N.

Definition join_surrogates (u u2 : N) : N :=
  (65536 + N.lor (N.shiftl (u - 55296) 10) (u2 - 56320))%N.

Definition push (c : char) (r : option (pystr * pystr)) : option (pystr * pystr) :=
  match r with
  | Some (str, rest) => Some (c :: str, rest)
  | None => None
  end.

Fixpoint scanstring (s : pystr) : option (pystr * pystr) :=
  match s with
  | [] => None
  | c :: s1 =>
      if char_eqb c dquote then Some ([], s1)
      else if is_char "\" c then
        match s1 with
        | [] => None
        | esc :: s2 =>
            if is_char "u" esc then
              match s2 with
              | a :: b :: c' :: d :: s3 =>
                  match decode_uXXXX a b c' d with
                  | None => None
                  | Some uni =>
                      if high_surrogate uni then
                        match s3 with
                        | bs :: u :: s4 =>
                            if is_char "\" bs && is_char "u" u then
                              match s4 with
                              | e :: f :: g :: h :: s5 =>
                                  match decode_uXXXX e f g h with
                                  | None => None
                                  | Some uni2 =>
                                      if low_surrogate uni2
                                      then push (join_surrogates uni uni2) (scanstring s5)
                                      else push uni (scanstring s3)
                                  end
                              | _ => None
                              end
                            else push uni (scanstring s3)
                        | _ => push uni (scanstring s3)
                        end
                      else push uni (scanstring s3)
                  end
              | _ => None
              end
            else
              match BACKSLASH esc with
              | Some c' => push c' (scanstring s2)
              | None => None
              end
        end
      else if (c <? 32)%N then None
      else push c (scanstring s1)
  end.

(** *** Values: [scan_once], [JSONObject], [JSONArray]

    The recursion of the decoder follows the nesting of the document; here
    it runs on a counter that [json_loads] sets high enough for its input
    (lemma [scan_once_enough] below). *)

Inductive parsed (A : Type) : Type :=
| Parsed (a : A) (rest : pystr)
| Invalid
| Exhausted.
Arguments Parsed {A} a rest.
Arguments Invalid {A}.
Arguments Exhausted {A}.

Definition constant (lit : string) (v : pyobj) (s : pystr)
  : option (pyobj * pystr) :=
  match starts_with (py lit) s with
  | Some r => Some (v, r)
  | None => None
  end.

Definition scan_atom (s : pystr) : parsed pyobj :=
  match constant "null" PyNone s with
  | Some (v, r) => Parsed v r
  | None =>
  match constant "true" (PyBool true) s with
  | Some (v, r) => Parsed v r
  | None =>
  match constant "false" (PyBool false) s with
  | Some (v, r) => Parsed v r
  | None =>
  match match_number s with
  | Some (v, r) => Parsed v r
  | None =>
  match constant "NaN" (PyFloat NaN) s with
  | Some (v, r) => Parsed v r
  | None =>
  match constant "Infinity" (PyFloat PosInf) s with
  | Some (v, r) => Parsed v r
  | None =>
  match constant "-Infinity" (PyFloat NegInf) s with
  | Some (v, r) => Parsed v r
  | None => Invalid
  end end end end end end end.

Fixpoint scan_once (n : nat) (s : pystr) {struct n} : parsed pyobj :=
  match n with
  | O => Exhausted
  | S n' =>
      match s with
      | [] => Invalid
      | c :: s' =>
          if char_eqb c dquote then
            match scanstring s' with
            | Some (str, r) => Parsed (PyStr str) r
            | None => Invalid
            end
          else if is_char "{" c then
            (* JSONObject, up to its loop *)
            match skip_ws s' with
            | c1 :: s1 =>
                if is_char "}" c1 then Parsed (PyDict []) s1
                else if char_eqb c1 dquote then object_members n' [] s1
                else Invalid
            | [] => Invalid
            end
          else if is_char "[" c then
            (* JSONArray, up to its loop *)
            match skip_ws s' with
            | c1 :: s1 =>
                if is_char "]" c1 then Parsed (PyList []) s1
                else array_items n' [] (c1 :: s1)
            | [] => Invalid
            end
          else scan_atom s
      end
  end

(** The loop of [JSONObject], entered after the opening quote of a key. *)
with object_members (n : nat) (pairs : list (pystr * pyobj)) (s : pystr)
  {struct n} : parsed pyobj :=
  match n with
  | O => Exhausted
  | S n' =>
      match scanstring s with
      | None => Invalid
      | Some (key, r) =>
          match skip_ws r with
          | c :: r1 =>
              if is_char ":" c then
                match scan_once n' (skip_ws r1) with
                | Parsed v r2 =>
                    let pairs' := pairs ++ [(key, v)] in
                    match skip_ws r2 with
                    | c2 :: r3 =>
                        if is_char "}" c2
                        then Parsed (PyDict (dict_of_pairs pairs')) r3
                        else if is_char "," c2 then
                          match skip_ws r3 with
                          | c3 :: r4 =>
                              if char_eqb c3 dquote
                              then object_members n' pairs' r4
                              else Invalid
                          | [] => Invalid
                          end
                        else Invalid
                    | [] => Invalid
                    end
                | Invalid => Invalid
                | Exhausted => Exhausted
                end
              else Invalid
          | [] => Invalid
          end
      end
  end

(** The loop of [JSONArray], entered at the start of an element. *)
with array_items (n : nat) (values : list pyobj) (s : pystr)
  {struct n} : parsed pyobj :=
  match n with
  | O => Exhausted
  | S n' =>
      match scan_once n' s with
      | Parsed v r =>
          let values' := values ++ [v] in
          match skip_ws r with
          | c :: r1 =>
              if is_char "]" c then Parsed (PyList values') r1
              else if is_char "," c then array_items n' values' (skip_ws r1)
              else Invalid
          | [] => Invalid
          end
      | Invalid => Invalid
      | Exhausted => Exhausted
      end
  end.

(** Exceptions [analyze_resume] can end with.  [JSONDecodeError] is a
    subclass of [ValueError]. *)
Inductive exn : Type :=
| ValueError (msg : pystr)
| JSONDecodeError
| ServiceError.

Definition is_ValueError (e : exn) : bool :=
  match e with
  | ValueError _ | JSONDecodeError => true
  | ServiceError => false
  end.

Inductive result (A : Type) : Type :=
| Ok (a : A)
| Err (e : exn).
Arguments Ok {A} a.
Arguments Err {A} e.

Definition enough (s : pystr) : nat := 2 * List.length s + 2.

(** [JSONDecoder.decode]: one value, whitespace around it, nothing else. *)
Definition decode (s : pystr) : result pyobj :=
  match scan_once (enough s) (skip_ws s) with
  | Parsed v r =>
      match skip_ws r with
      | [] => Ok v
      | _ :: _ => Err JSONDecodeError
      end
  | Invalid | Exhausted => Err JSONDecodeError
  end.

(** [json.loads(s)] for a [str]: a leading byte order mark is refused. *)
Definition json_loads (s : pystr) : result pyobj :=
  match s with
  | c :: _ => if (c =? 65279)%N then Err JSONDecodeError else decode s
  | [] => decode s
  end.

(** ** [analyze_resume] (app.py, lines 39-83) *)

Definition nl : pystr := [10%N].

(** A double-quoted word of the prompt. *)
Definition quoted (s : string) : pystr := dquote :: py s ++ [dquote].

(** [job_description if job_description else "Not provided"] *)
Definition job_description_slot (job_description : option pystr) : pystr :=
  match job_description with
  | Some s => if nonempty s then s else py "Not provided"
  | None => py "Not provided"
  end.

(** The f-string of lines 42-67. *)
Definition prompt (resume_text : pystr) (job_description : option pystr) : pystr :=
  nl
  ++ py "    You are an AI hiring assistant. Compare the following RESUME with the JOB DESCRIPTION." ++ nl
  ++ py "    Score the candidate using strict, realistic hiring criteria." ++ nl
  ++ nl
  ++ py "    Produce a STRICT JSON OUTPUT in the following structure:" ++ nl
  ++ nl
  ++ py "    {" ++ nl
  ++ py "      " ++ quoted "overall_match_score" ++ py ": number (0-100)," ++ nl
  ++ py "      " ++ quoted "skill_match_score" ++ py ": number (0-100)," ++ nl
  ++ py "      " ++ quoted "experience_match_score" ++ py ": number (0-100)," ++ nl
  ++ py "      " ++ quoted "degree_match" ++ py ": " ++ quoted "match" ++ py " | "
       ++ quoted "partial" ++ py " | " ++ quoted "no match" ++ py "," ++ nl
  ++ py "      " ++ quoted "requirement_coverage" ++ py ": {" ++ nl
  ++ py "          " ++ quoted "met" ++ py ": [list]," ++ nl
  ++ py "          " ++ quoted "missing" ++ py ": [list]" ++ nl
  ++ py "      }," ++ nl
  ++ py "      " ++ quoted "strengths" ++ py ": [list]," ++ nl
  ++ py "      " ++ quoted "weaknesses" ++ py ": [list]," ++ nl
  ++ py "      " ++ quoted "final_decision" ++ py ": " ++ quoted "Shortlist" ++ py " | "
       ++ quoted "Do Not Shortlist" ++ py "," ++ nl
  ++ py "      " ++ quoted "explanation" ++ py ": "
       ++ quoted "short paragraph explaining decision" ++ nl
  ++ py "    }" ++ nl
  ++ py "    Resume:" ++ nl
  ++ py "    " ++ resume_text ++ nl
  ++ nl
  ++ py "    Job Description:" ++ nl
  ++ py "    " ++ job_description_slot job_description ++ nl
  ++ py "    ".

Definition not_valid_json : exn :=
  ValueError (py "Model did not return valid JSON.").

Definition failed {A} (r : result A) : bool :=
  match r with Ok _ => false | Err _ => true end.

(** Lines 71-83: the reply is decoded as a whole; when that raises
    (whatever it raises, the [except] is bare), the first match of
    [brace_pattern] is decoded instead, an exception of this second
    [json.loads] leaving the function; without a match the function raises
    its own [ValueError]. *)
Definition parse_reply (response_text : pystr) : result pyobj :=
  match json_loads response_text with
  | Ok result => Ok result
  | Err _ =>
      match re_search brace_pattern response_text with
      | Some json_match => json_loads json_match
      | None => Err not_valid_json
      end
  end.

(** The generative model is a parameter: it answers a prompt with the text
    of its reply or raises. *)
Definition analyze_resume (generate_content : pystr -> result pystr)
  (resume_text : pystr) (job_description : option pystr) : result pyobj :=
  match generate_content (prompt resume_text job_description) with
  | Ok response_text => parse_reply response_text
  | Err e => Err e
  end.

(** A model that answers every prompt with the same reply. *)
Definition replies (response_text : pystr) : pystr -> result pystr :=
  fun _ => Ok response_text.

(** ** The MatchResult record

    Modelled from the spec: the source declares no type for the result; the
    fields and invariants are those of the data model (three integer scores
    in 0..100, two enumerations, string lists, a free-text explanation),
    under the field names the prompt of lines 48-61 asks for. *)

Definition is_score (v : option pyobj) : bool :=
  match v with
  | Some (PyInt z) => ((0 <=? z) && (z <=? 100))%Z
  | _ => false
  end.

Definition is_one_of (options : list string) (v : option pyobj) : bool :=
  match v with
  | Some (PyStr s) => existsb (fun o => pystr_eqb s (py o)) options
  | _ => false
  end.

Definition is_str (v : pyobj) : bool :=
  match v with PyStr _ => true | _ => false end.

Definition is_str_list (v : option pyobj) : bool :=
  match v with
  | Some (PyList l) => forallb is_str l
  | _ => false
  end.

Definition is_coverage (v : option pyobj) : bool :=
  match v with
  | Some (PyDict d) =>
      is_str_list (dict_get d (py "met")) && is_str_list (dict_get d (py "missing"))
  | _ => false
  end.

Definition MatchResult_shaped (v : pyobj) : bool :=
  match v with
  | PyDict d =>
      is_score (dict_get d (py "overall_match_score"))
      && is_score (dict_get d (py "skill_match_score"))
      && is_score (dict_get d (py "experience_match_score"))
      && is_one_of ["match"; "partial"; "no match"]%string (dict_get d (py "degree_match"))
      && is_coverage (dict_get d (py "requirement_coverage"))
      && is_str_list (dict_get d (py "strengths"))
      && is_str_list (dict_get d (py "weaknesses"))
      && is_one_of ["Shortlist"; "Do Not Shortlist"]%string (dict_get d (py "final_decision"))
      && match dict_get d (py "explanation") with Some (PyStr _) => true | _ => false end
  | _ => false
  end.

Definition is_dict (v : pyobj) : bool :=
  match v with PyDict _ => true | _ => false end.

(** ** Sample documents and replies *)

Definition text_page (s : pystr) : page := {| extract_text := Ret (Some s) |}.
Definition empty_page : page := {| extract_text := Ret None |}.
Definition failing_page : page := {| extract_text := Raise |}.
Definition scan (s : pystr) : image := {| image_to_string := Ret s |}.

Definition uploaded_resume : pystr := py "uploaded_resume.pdf".

(** A digitally authored resume: one page whose text layer starts with a
    space and ends with a line break. *)
Definition authored_pdf : world :=
  {| pdfplumber_open := fun _ => Ret [text_page (py " Hello" ++ nl)];
     convert_from_path := fun _ => Ret [scan (py "Hello")] |}.

(** A scanned resume: a page without text layer, readable by OCR. *)
Definition scanned_pdf : world :=
  {| pdfplumber_open := fun _ => Ret [empty_page];
     convert_from_path := fun _ => Ret [scan (py "World" ++ nl)] |}.

(** A resume whose second page makes pdfplumber raise. *)
Definition damaged_pdf : world :=
  {| pdfplumber_open := fun _ => Ret [text_page (py "Hello"); failing_page];
     convert_from_path := fun _ => Ret [scan (py "World")] |}.

(** The same, and pdf2image cannot render it either. *)
Definition damaged_unrenderable_pdf : world :=
  {| pdfplumber_open := fun _ => Ret [text_page (py "Hello"); failing_page];
     convert_from_path := fun _ => Raise |}.

(** A scan that pdfplumber cannot open but pdf2image can render. *)
Definition unparsable_scan : world :=
  {| pdfplumber_open := fun _ => Raise;
     convert_from_path := fun _ => Ret [scan (py "World" ++ nl)] |}.

(** Not a PDF at all: both libraries raise on opening. *)
Definition unreadable_file : world :=
  {| pdfplumber_open := fun _ => Raise;
     convert_from_path := fun _ => Raise |}.

(** The reply of the end-to-end scenario of the specification. *)
Definition good_fields : pystr :=
  quoted "overall_match_score" ++ py ":85,"
  ++ quoted "skill_match_score" ++ py ":90,"
  ++ quoted "experience_match_score" ++ py ":80,"
  ++ quoted "degree_match" ++ py ":" ++ quoted "match" ++ py ","
  ++ quoted "requirement_coverage" ++ py ":{"
  ++ quoted "met" ++ py ":[" ++ quoted "Python" ++ py "," ++ quoted "AWS" ++ py "],"
  ++ quoted "missing" ++ py ":[" ++ quoted "Docker certification" ++ py "]},"
  ++ quoted "strengths" ++ py ":[" ++ quoted "Strong cloud background" ++ py "],"
  ++ quoted "weaknesses" ++ py ":[" ++ quoted "No cert" ++ py "],"
  ++ quoted "final_decision" ++ py ":" ++ quoted "Shortlist" ++ py ","
  ++ quoted "explanation" ++ py ":" ++ quoted "Good fit.".

Definition good_reply : pystr := py "{" ++ good_fields ++ py "}".

Definition good_record : pyobj :=
  PyDict
    [(py "overall_match_score", PyInt 85);
     (py "skill_match_score", PyInt 90);
     (py "experience_match_score", PyInt 80);
     (py "degree_match", PyStr (py "match"));
     (py "requirement_coverage",
      PyDict [(py "met", PyList [PyStr (py "Python"); PyStr (py "AWS")]);
              (py "missing", PyList [PyStr (py "Docker certification")])]);
     (py "strengths", PyList [PyStr (py "Strong cloud background")]);
     (py "weaknesses", PyList [PyStr (py "No cert")]);
     (py "final_decision", PyStr (py "Shortlist"));
     (py "explanation", PyStr (py "Good fit."))].

(** A reply that breaks the range of a score, the type of another and
    both enumerations. *)
Definition malformed_reply : pystr :=
  py "{" ++ quoted "overall_match_score" ++ py ":150,"
  ++ quoted "skill_match_score" ++ py ":" ++ quoted "high" ++ py ","
  ++ quoted "degree_match" ++ py ":" ++ quoted "maybe" ++ py ","
  ++ quoted "final_decision" ++ py ":" ++ quoted "Hire" ++ py "}".

Definition malformed_record : pyobj :=
  PyDict
    [(py "overall_match_score", PyInt 150);
     (py "skill_match_score", PyStr (py "high"));
     (py "degree_match", PyStr (py "maybe"));
     (py "final_decision", PyStr (py "Hire"))].

Definition sample_resume : pystr := py "5 years Python, AWS, Docker".

Definition sample_job : pystr :=
  py "Looking for a Python backend engineer with cloud experience".

(** ** Documents given by what their pages and images hold *)

(** A document whose pages all extract, to the given values. *)
Definition pages_of (vs : list pyval) : list page :=
  map (fun v => {| extract_text := Ret v |}) vs.



Definition is_extract_text_call (c : call) : bool :=
  match c with Called_extract_text => true | _ => false end.

Definition is_image_to_string_call (c : call) : bool :=
  match c with Called_image_to_string => true | _ => false end.

(** How often a kind of call was made. *)
Definition times (kind : call -> bool) (log : list call) : nat :=
  List.length (filter kind log).

(** ** Parts of the prompt and of a reply *)

(** What the f-string puts between the resume and the job description
    (lines 63-66). *)
Definition job_description_heading : pystr :=
  nl ++ nl ++ py "    Job Description:" ++ nl ++ py "    ".

(** The text can be the start of a JSON value, as [scan_once] reads it: a
    quote, a brace, a bracket, a minus sign, a digit, or one of the words
    [null], [true], [false], [NaN], [Infinity]. *)
Definition starts_json_value (s : pystr) : bool :=
  match s with
  | [] => false
  | c :: _ =>
      char_eqb c dquote || is_char "{" c || is_char "[" c || is_char "-" c
      || is_digit c
      || existsb (fun lit => match starts_with (py lit) s with
                             | Some _ => true
                             | None => false
                             end)
           ["null"; "true"; "false"; "NaN"; "Infinity"]%string
  end.

(** The fixed text of the prompt before the resume (lines 42-62), and
    after the job description (lines 66-67). *)
Definition prompt_head : pystr :=
  nl
  ++ py "    You are an AI hiring assistant. Compare the following RESUME with the JOB DESCRIPTION." ++ nl
  ++ py "    Score the candidate using strict, realistic hiring criteria." ++ nl
  ++ nl
  ++ py "    Produce a STRICT JSON OUTPUT in the following structure:" ++ nl
  ++ nl
  ++ py "    {" ++ nl
  ++ py "      " ++ quoted "overall_match_score" ++ py ": number (0-100)," ++ nl
  ++ py "      " ++ quoted "skill_match_score" ++ py ": number (0-100)," ++ nl
  ++ py "      " ++ quoted "experience_match_score" ++ py ": number (0-100)," ++ nl
  ++ py "      " ++ quoted "degree_match" ++ py ": " ++ quoted "match" ++ py " | "
       ++ quoted "partial" ++ py " | " ++ quoted "no match" ++ py "," ++ nl
  ++ py "      " ++ quoted "requirement_coverage" ++ py ": {" ++ nl
  ++ py "          " ++ quoted "met" ++ py ": [list]," ++ nl
  ++ py "          " ++ quoted "missing" ++ py ": [list]" ++ nl
  ++ py "      }," ++ nl
  ++ py "      " ++ quoted "strengths" ++ py ": [list]," ++ nl
  ++ py "      " ++ quoted "weaknesses" ++ py ": [list]," ++ nl
  ++ py "      " ++ quoted "final_decision" ++ py ": " ++ quoted "Shortlist" ++ py " | "
       ++ quoted "Do Not Shortlist" ++ py "," ++ nl
  ++ py "      " ++ quoted "explanation" ++ py ": "
       ++ quoted "short paragraph explaining decision" ++ nl
  ++ py "    }" ++ nl
  ++ py "    Resume:" ++ nl
  ++ py "    ".

Definition prompt_tail : pystr := nl ++ py "    ".

(** ** The "Analyze Resume" handler of the page (app.py, lines 104-141)

    What the handler puts on the page is recorded as a list of items.  An
    f-string with one value is kept as its two literal parts and the value;
    a subscript may raise, and [except Exception] catches what the handler
    can raise. *)

Inductive ui_exn : Type :=
| Raised_by_analyze (e : exn)
| KeyError (key : pystr)
| TypeError.

Inductive shown : Type :=
| Subheader (s : pystr)
| Write_text (s : pystr)
| Write_fmt (before : pystr) (v : pyobj) (after : pystr)
| Write_value (v : pyobj)
| Error_box (e : ui_exn).

Inductive uires (A : Type) : Type :=
| Done (a : A)
| Thrown (e : ui_exn).
Arguments Done {A} a.
Arguments Thrown {A} e.

Definition ui (A : Type) : Type := list shown -> uires A * list shown.

Definition ui_ret {A} (a : A) : ui A := fun items => (Done a, items).

Definition ui_bind {A B} (m : ui A) (k : A -> ui B) : ui B :=
  fun items =>
    match m items with
    | (Done a, items') => k a items'
    | (Thrown e, items') => (Thrown e, items')
    end.

Declare Scope ui_scope.
Delimit Scope ui_scope with ui.
Notation "x <- m ;; k" := (ui_bind m (fun x => k))
  (at level 61, m at next level, right associativity) : ui_scope.
Notation "m ;; k" := (ui_bind m (fun _ => k))
  (at level 61, right associativity) : ui_scope.

(** [st.subheader], [st.write], [st.error] *)
Definition show (x : shown) : ui unit := fun items => (Done tt, items ++ [x]).

(** [v[key]] for a string key: only a [dict] can be subscripted so, and
    the key must be there. *)
Definition subscript (v : pyobj) (key : string) : ui pyobj :=
  fun items =>
    match v with
    | PyDict d =>
        match dict_get d (py key) with
        | Some x => (Done x, items)
        | None => (Thrown (KeyError (py key)), items)
        end
    | _ => (Thrown TypeError, items)
    end.

(** [v == "Shortlist"]: equal only to that string. *)
Definition equals_str (v : pyobj) (s : string) : bool :=
  match v with PyStr t => pystr_eqb t (py s) | _ => false end.

(** [try: body  except Exception as e: handler] *)
Definition ui_try (body : ui unit) (handler : ui_exn -> ui unit) : ui unit :=
  fun items =>
    match body items with
    | (Thrown e, items') => handler e items'
    | r => r
    end.

Definition green_circle : char := 128994%N.
Definition red_circle : char := 128308%N.

(** Lines 111-138. *)
Definition render (result : pyobj) : ui unit :=
  (show (Subheader (py "AI-Generated Resume Evaluation")) ;;
   v <- subscript result "overall_match_score" ;;
   show (Write_fmt (py "### Overall Match Score: **") v (py " / 100**")) ;;
   show (Write_text (py "### Breakdown:")) ;;
   v <- subscript result "skill_match_score" ;;
   show (Write_fmt (py "- **Skill Match:** ") v (py " / 100")) ;;
   v <- subscript result "experience_match_score" ;;
   show (Write_fmt (py "- **Experience Match:** ") v (py " / 100")) ;;
   v <- subscript result "degree_match" ;;
   show (Write_fmt (py "- **Degree Match:** `") v (py "`")) ;;
   show (Write_text (py "### Requirement Coverage")) ;;
   show (Write_text (py "**Met:**")) ;;
   c <- subscript result "requirement_coverage" ;;
   v <- subscript c "met" ;;
   show (Write_value v) ;;
   show (Write_text (py "**Missing:**")) ;;
   c <- subscript result "requirement_coverage" ;;
   v <- subscript c "missing" ;;
   show (Write_value v) ;;
   show (Write_text (py "### Strengths")) ;;
   v <- subscript result "strengths" ;;
   show (Write_value v) ;;
   show (Write_text (py "### Weaknesses")) ;;
   v <- subscript result "weaknesses" ;;
   show (Write_value v) ;;
   show (Write_text (py "### Final Decision")) ;;
   d <- subscript result "final_decision" ;;
   (if equals_str d "Shortlist"
    then v <- subscript result "final_decision" ;;
         show (Write_fmt (py "**" ++ green_circle :: py " ") v (py "**"))
    else v <- subscript result "final_decision" ;;
         show (Write_fmt (py "**" ++ red_circle :: py " ") v (py "**"))) ;;
   show (Write_text (py "### Explanation")) ;;
   v <- subscript result "explanation" ;;
   show (Write_value v))%ui.

(** The call of [analyze_resume] inside the [try]. *)
Definition call_analyze (r : result pyobj) : ui pyobj :=
  fun items =>
    match r with
    | Ok v => (Done v, items)
    | Err e => (Thrown (Raised_by_analyze e), items)
    end.

(** Lines 108-141: what a click on the button does.  The job description
    is the string of the text area. *)
Definition on_analyze (generate_content : pystr -> result pystr)
  (resume_text job_description : pystr) : ui unit :=
  ui_try
    (result <- call_analyze
                 (analyze_resume generate_content resume_text (Some job_description)) ;;
     render result)%ui
    (fun e => show (Error_box e)).

Definition is_error_box (x : shown) : bool :=
  match x with Error_box _ => true | _ => false end.

(** No error box on the page. *)
Definition error_free (items : list shown) : bool :=
  forallb (fun x => negb (is_error_box x)) items.

Definition has (d : list (pystr * pyobj)) (key : string) : bool :=
  match dict_get d (py key) with Some _ => true | None => false end.

(** The keys the handler reads are there: nine at the top, two under
    [requirement_coverage]. *)
Definition renderable (v : pyobj) : bool :=
  match v with
  | PyDict d =>
      has d "overall_match_score" && has d "skill_match_score"
      && has d "experience_match_score" && has d "degree_match"
      && match dict_get d (py "requirement_coverage") with
         | Some (PyDict c) => has c "met" && has c "missing"
         | _ => false
         end
      && has d "strengths" && has d "weaknesses"
      && has d "final_decision" && has d "explanation"
  | _ => false
  end.

(** The line that shows the decision (lines 132-136): green for the string
    "Shortlist", red for anything else. *)
Definition decision_badge (v : pyobj) : option shown :=
  match v with
  | PyDict d =>
      match dict_get d (py "final_decision") with
      | Some x =>
          Some (Write_fmt
                  (py "**" ++ (if equals_str x "Shortlist"
                               then green_circle else red_circle) :: py " ")
                  x (py "**"))
      | None => None
      end
  | _ => None
  end.

(** Lines 100-106: with a file uploaded, its text is extracted on every
    run of the script, and analysed when the button is clicked.  The
    upload is taken as saved under its fixed name; [None] in an f-string
    reads "None". *)
Definition format_value (v : pyval) : pystr :=
  match v with Some s => s | None => py "None" end.

Definition page_script (w : world) (generate_content : pystr -> result pystr)
  (uploaded clicked : bool) (job_description : pystr)
  : list call * outcome (list shown) :=
  if uploaded then
    match extract_text_from_pdf w uploaded_resume with
    | (Ret resume_text, log) =>
        (log,
         Ret (if clicked
              then snd (on_analyze generate_content (format_value resume_text)
                          job_description [])
              else []))
    | (Raise, log) => (log, Raise)
    end
  else ([], Ret []).

(** ** What may follow a number

    A number ends where the text no longer continues it; a delimited value
    (string, list, dict, constant) ends at its own last character. *)

(** The text is not empty and its first character continues no number. *)
Definition neutral (r : pystr) : bool :=
  match r with
  | [] => false
  | c :: _ =>
      negb (is_digit c || is_char "." c || is_char "e" c || is_char "E" c)
  end.

Definition delimited (v : pyobj) : bool :=
  match v with PyInt _ | PyFloat _ => false | _ => true end.

(** * Properties *)

(** ** Facts about [strip] *)

Lemma lstrip_blank (s : pystr) : blank s = true -> lstrip s = [].
Proof.
  induction s as [|c s IH]; simpl; [reflexivity|].
  intros H. apply andb_true_iff in H as [Hc Hs]. now rewrite Hc, IH.
Qed.

Lemma lstrip_nil_blank (s : pystr) : lstrip s = [] -> blank s = true.
Proof.
  induction s as [|c s IH]; simpl; [reflexivity|].
  destruct (isspace c); [exact IH|discriminate].
Qed.

Lemma lstrip_app_blank (a b : pystr) :
  blank a = true -> lstrip (a ++ b) = lstrip b.
Proof.
  induction a as [|c a IH]; simpl; [reflexivity|].
  intros H. apply andb_true_iff in H as [Hc Ha]. now rewrite Hc, IH.
Qed.

Lemma blank_app (a b : pystr) : blank (a ++ b) = blank a && blank b.
Proof. apply forallb_app. Qed.

Lemma blank_rev (s : pystr) : blank (rev s) = blank s.
Proof.
  induction s as [|c s IH]; simpl; [reflexivity|].
  rewrite blank_app, IH. simpl. rewrite andb_true_r. apply andb_comm.
Qed.

Lemma lstrip_head (s : pystr) :
  match lstrip s with [] => True | c :: _ => isspace c = false end.
Proof.
  induction s as [|c s IH]; simpl; [exact I|].
  destruct (isspace c) eqn:E; [exact IH|exact E].
Qed.

Lemma lstrip_suffix (s : pystr) :
  exists a, s = a ++ lstrip s /\ blank a = true.
Proof.
  induction s as [|c s [a [Ha Hb]]]; simpl.
  - now exists [].
  - destruct (isspace c) eqn:E.
    + exists (c :: a). simpl. rewrite E, Hb. split; [now rewrite <- Ha|reflexivity].
    + now exists [].
Qed.

Lemma lstrip_not_blank_app (a b : pystr) :
  blank a = false -> lstrip (a ++ b) = lstrip a ++ b.
Proof.
  induction a as [|c a IH]; simpl; [discriminate|].
  destruct (isspace c); simpl; [exact IH|reflexivity].
Qed.

Lemma strip_blank (s : pystr) : blank s = true -> strip s = [].
Proof. intros H. unfold strip. now rewrite (lstrip_blank _ H). Qed.

Lemma strip_nil_blank (s : pystr) : strip s = [] -> blank s = true.
Proof.
  unfold strip, rstrip. intros H.
  assert (H1 : lstrip (rev (lstrip s)) = []).
  { rewrite <- (rev_involutive (lstrip (rev (lstrip s)))), H. reflexivity. }
  apply lstrip_nil_blank in H1. rewrite blank_rev in H1.
  destruct (lstrip_suffix s) as [a [Ha Hb]].
  rewrite Ha, blank_app, Hb, H1. reflexivity.
Qed.

Lemma nonempty_strip_blank (s : pystr) :
  nonempty (strip s) = negb (blank s).
Proof.
  destruct (blank s) eqn:E.
  - now rewrite (strip_blank _ E).
  - destruct (strip s) eqn:Es; [|reflexivity].
    apply strip_nil_blank in Es. congruence.
Qed.

Lemma strip_app_blank_l (a b : pystr) :
  blank a = true -> strip (a ++ b) = strip b.
Proof. intros H. unfold strip. now rewrite lstrip_app_blank. Qed.

Lemma rstrip_app_blank (a b : pystr) :
  blank b = true -> rstrip (a ++ b) = rstrip a.
Proof.
  intros H. unfold rstrip. rewrite rev_app_distr, lstrip_app_blank; [reflexivity|].
  now rewrite blank_rev.
Qed.

Lemma strip_app_blank_r (a b : pystr) :
  blank b = true -> strip (a ++ b) = strip a.
Proof.
  intros H. unfold strip.
  destruct (blank a) eqn:Ea.
  - rewrite lstrip_app_blank by exact Ea.
    now rewrite (lstrip_blank _ H), (lstrip_blank _ Ea).
  - rewrite lstrip_not_blank_app by exact Ea. now apply rstrip_app_blank.
Qed.

Lemma strip_app_blank (a b : pystr) :
  blank a = true -> blank b = true -> strip (a ++ b) = [].
Proof. intros Ha Hb. apply strip_blank. now rewrite blank_app, Ha, Hb. Qed.

(** ** Running the stages *)

Lemma pages_loop_run (ps : list page) (f : frame) :
  for_each ps (fun page =>
    t <- external Called_extract_text (extract_text page) ;;
    when (truthy t)
      (t' <- external Called_extract_text (extract_text page) ;;
       add_text t')) f
  = (if pages_complete ps then Normal tt else Raised,
     {| text := text f ++ pages_text ps; calls := calls f ++ pages_calls ps |}).
Proof.
  revert f. induction ps as [|p ps IH]; intros [t l]; simpl.
  - unfold pass, ret. now rewrite !app_nil_r.
  - unfold bind at 1. unfold bind at 1. unfold external at 1. simpl.
    destruct (extract_text p) as [v|] eqn:Ep.
    + destruct v as [s|]; simpl.
      * destruct s as [|c s]; simpl.
        -- unfold pass, ret. rewrite IH. simpl.
           now rewrite <- !app_assoc.
        -- rewrite IH. simpl. now rewrite <- !app_assoc.
      * unfold pass, ret. rewrite IH. simpl. now rewrite <- !app_assoc.
    + now rewrite app_nil_r.
Qed.

Lemma images_loop_run (imgs : list image) (f : frame) :
  for_each imgs (fun img =>
    s <- external Called_image_to_string (image_to_string img) ;;
    add_text (Some s)) f
  = (if images_complete imgs then Normal tt else Raised,
     {| text := text f ++ images_text imgs;
        calls := calls f ++ images_calls imgs |}).
Proof.
  revert f. induction imgs as [|i imgs IH]; intros [t l]; simpl.
  - unfold pass, ret. now rewrite !app_nil_r.
  - unfold bind at 1. unfold bind at 1. unfold external at 1. simpl.
    destruct (image_to_string i) as [s|] eqn:Ei; simpl.
    + rewrite IH. simpl. now rewrite <- !app_assoc.
    + now rewrite app_nil_r.
Qed.

(** The text-layer stage inside its [try]: it leaves through [return] with
    the untrimmed text when it completed with something visible, and falls
    through to the OCR stage otherwise, [text] keeping what was appended. *)
Lemma text_layer_stage_run (w : world) (pdf_path : pystr) (l : list call) :
  try_except (text_layer_stage w pdf_path) pass {| text := []; calls := l |}
  = (match text_layer w pdf_path with
     | Ret t => if nonempty (strip t) then Returned t else Normal tt
     | Raise => Normal tt
     end,
     {| text := text_layer_partial w pdf_path;
        calls := l ++ text_layer_calls w pdf_path |}).
Proof.
  unfold try_except, text_layer_stage, text_layer, text_layer_partial,
    text_layer_calls.
  unfold bind at 1. unfold external at 1. simpl.
  destruct (pdfplumber_open w pdf_path) as [ps|]; simpl.
  - unfold bind at 1. rewrite pages_loop_run. simpl.
    rewrite <- app_assoc. simpl.
    destruct (pages_complete ps); simpl.
    + unfold bind, get_text. simpl.
      destruct (nonempty (strip (pages_text ps))); reflexivity.
    + reflexivity.
  - reflexivity.
Qed.

Lemma ocr_stage_run (w : world) (pdf_path : pystr) (f : frame) :
  try_except (ocr_stage w pdf_path) pass f
  = (Normal tt,
     {| text := text f ++ ocr_partial w pdf_path;
        calls := calls f ++ ocr_calls w pdf_path |}).
Proof.
  unfold try_except, ocr_stage, ocr_partial, ocr_calls.
  unfold bind at 1. unfold external at 1. simpl.
  destruct (convert_from_path w pdf_path) as [imgs|]; simpl.
  - rewrite images_loop_run. simpl. rewrite <- app_assoc. simpl.
    destruct (images_complete imgs); reflexivity.
  - now rewrite app_nil_r.
Qed.

Lemma text_layer_Ret_partial (w : world) (pdf_path t : pystr) :
  text_layer w pdf_path = Ret t -> text_layer_partial w pdf_path = t.
Proof.
  unfold text_layer, text_layer_partial.
  destruct (pdfplumber_open w pdf_path) as [ps|]; [|discriminate].
  destruct (pages_complete ps); [|discriminate]. congruence.
Qed.

(** The whole function in closed form. *)
Lemma extract_text_from_pdf_run (w : world) (pdf_path : pystr) :
  extract_text_from_pdf w pdf_path =
  if negb (yields_nothing (text_layer w pdf_path))
  then (Ret (Some (text_layer_partial w pdf_path)), text_layer_calls w pdf_path)
  else (Ret (Some (strip (text_layer_partial w pdf_path ++ ocr_partial w pdf_path))),
        text_layer_calls w pdf_path ++ ocr_calls w pdf_path).
Proof.
  unfold extract_text_from_pdf, call_function, extract_text_from_pdf_body.
  unfold bind at 1. unfold set_text at 1. simpl.
  unfold bind at 1. rewrite text_layer_stage_run. simpl.
  unfold yields_nothing.
  destruct (text_layer w pdf_path) as [t|] eqn:Et.
  - destruct (nonempty (strip t)) eqn:Hs; simpl.
    + now rewrite (text_layer_Ret_partial _ _ _ Et).
    + unfold bind at 1. rewrite ocr_stage_run. reflexivity.
  - simpl. unfold bind at 1. rewrite ocr_stage_run. reflexivity.
Qed.

Lemma pages_calls_not_ocr (ps : list page) :
  existsb is_ocr_call (pages_calls ps) = false.
Proof.
  induction ps as [|p ps IH]; simpl; [reflexivity|].
  destruct (extract_text p) as [v|]; [|reflexivity].
  rewrite existsb_app, IH. now destruct (truthy v).
Qed.

Lemma text_layer_calls_not_ocr (w : world) (pdf_path : pystr) :
  ocr_invoked (text_layer_calls w pdf_path) = false.
Proof.
  unfold ocr_invoked, text_layer_calls. simpl.
  destruct (pdfplumber_open w pdf_path); [apply pages_calls_not_ocr|reflexivity].
Qed.

Lemma ocr_calls_invoked (w : world) (pdf_path : pystr) (l : list call) :
  ocr_invoked (l ++ ocr_calls w pdf_path) = true.
Proof.
  unfold ocr_invoked, ocr_calls. rewrite existsb_app. simpl.
  now rewrite orb_true_r.
Qed.

(** ** The match of [brace_pattern] *)

Lemma any_char (c : char) : isspace c || negb (isspace c) = true.
Proof. now destruct (isspace c). Qed.

Lemma match_here_brace (s : pystr) :
  match_here brace_pattern s =
  match s with
  | c :: s' => if is_char "{" c then option_map (cons c) (upto_last "}" s') else None
  | [] => None
  end.
Proof.
  destruct s as [|c s]; [reflexivity|].
  unfold brace_pattern. cbn [match_here].
  destruct (is_char "{" c); [|reflexivity]. f_equal.
  induction s as [|d s IH]; [reflexivity|].
  rewrite any_char. rewrite IH. cbn [upto_last].
  destruct (upto_last "}" s); [reflexivity|].
  now destruct (is_char "}" d).
Qed.

Lemma re_search_no_closing (s : pystr) :
  upto_last "}" s = None -> re_search brace_pattern s = None.
Proof.
  induction s as [|c s IH]; intros H.
  - reflexivity.
  - cbn [re_search]. rewrite match_here_brace.
    cbn [upto_last] in H.
    destruct (upto_last "}" s) eqn:E; [discriminate|].
    rewrite (IH eq_refl). now destruct (is_char "{" c).
Qed.

(** [re.search] on line 77 finds the text from the first opening brace to
    the last closing brace. *)
Lemma re_search_brace (s : pystr) :
  re_search brace_pattern s = first_brace_to_last_brace s.
Proof.
  unfold first_brace_to_last_brace.
  induction s as [|c s IH].
  - reflexivity.
  - cbn [re_search from_first]. rewrite match_here_brace.
    destruct (is_char "{" c) eqn:Ec.
    + destruct (upto_last "}" s) eqn:E; [reflexivity|].
      cbn. now apply re_search_no_closing.
    + exact IH.
Qed.

Lemma from_first_skip (a : ascii) (pre s : pystr) :
  existsb (is_char a) pre = false -> from_first a (pre ++ s) = from_first a s.
Proof.
  induction pre as [|c pre IH]; [reflexivity|].
  cbn [existsb app from_first]. intros H.
  apply orb_false_iff in H as [Hc Hp]. rewrite Hc. now apply IH.
Qed.

Lemma upto_last_none (a : ascii) (s : pystr) :
  existsb (is_char a) s = false -> upto_last a s = None.
Proof.
  induction s as [|c s IH]; [reflexivity|].
  cbn [existsb upto_last]. intros H.
  apply orb_false_iff in H as [Hc Hs]. now rewrite (IH Hs), Hc.
Qed.

Lemma upto_last_closing (a : ascii) (mid suf : pystr) :
  existsb (is_char a) suf = false ->
  upto_last a (mid ++ ch a :: suf) = Some (mid ++ [ch a]).
Proof.
  intros H. induction mid as [|c mid IH].
  - cbn [app upto_last]. rewrite (upto_last_none _ _ H).
    unfold is_char, char_eqb. now rewrite N.eqb_refl.
  - cbn [app upto_last]. now rewrite IH.
Qed.

(** A brace-delimited text is found again inside prose that has no opening
    brace before it and no closing brace after it. *)
Lemma first_brace_to_last_brace_wrapped (pre mid suf : pystr) :
  existsb (is_char "{") pre = false ->
  existsb (is_char "}") suf = false ->
  first_brace_to_last_brace (pre ++ (ch "{" :: mid ++ [ch "}"]) ++ suf)
  = Some (ch "{" :: mid ++ [ch "}"]).
Proof.
  intros Hpre Hsuf. unfold first_brace_to_last_brace.
  rewrite (from_first_skip _ _ _ Hpre).
  cbn [app from_first]. unfold is_char at 1, char_eqb. rewrite N.eqb_refl.
  rewrite <- app_assoc. cbn [app].
  now rewrite (upto_last_closing _ _ _ Hsuf).
Qed.

Lemma from_first_none (a : ascii) (s : pystr) :
  existsb (is_char a) s = false -> from_first a s = None.
Proof.
  induction s as [|c s IH]; [reflexivity|].
  cbn [existsb from_first]. intros H.
  apply orb_false_iff in H as [Hc Hs]. rewrite Hc. now apply IH.
Qed.

Lemma from_first_suffix (a : ascii) (s t : pystr) :
  from_first a s = Some t -> exists pre, s = pre ++ t.
Proof.
  revert t. induction s as [|c s IH]; intros t; cbn [from_first]; [discriminate|].
  destruct (is_char a c).
  - intros H. injection H as <-. now exists [].
  - intros H. destruct (IH _ H) as [pre ->]. now exists (c :: pre).
Qed.

(** Without an opening brace, or without a closing brace, there is no
    match. *)
Lemma no_brace_no_match (s : pystr) :
  existsb (is_char "{") s = false \/ existsb (is_char "}") s = false ->
  first_brace_to_last_brace s = None.
Proof.
  unfold first_brace_to_last_brace. intros [H|H].
  - now rewrite (from_first_none _ _ H).
  - destruct (from_first "{" s) as [[|c t]|] eqn:E; try reflexivity.
    destruct (from_first_suffix _ _ _ E) as [pre ->].
    rewrite existsb_app in H. apply orb_false_iff in H as [_ H].
    cbn [existsb] in H. apply orb_false_iff in H as [_ H].
    now rewrite (upto_last_none _ _ H).
Qed.

(** ** The decoder never runs out of its counter *)

Local Abbreviation len := (@List.length char).

Lemma skip_ws_length (s : pystr) : len (skip_ws s) <= len s.
Proof.
  induction s as [|c s IH]; simpl; [lia|].
  destruct (is_json_ws c); simpl; lia.
Qed.

Lemma starts_with_length (lit s r : pystr) :
  starts_with lit s = Some r -> len s = len lit + len r.
Proof.
  revert s. induction lit as [|a lit IH]; intros [|c s]; simpl;
    try discriminate.
  - intros H. now injection H as <-.
  - intros H. now injection H as <-.
  - destruct (char_eqb a c); [|discriminate].
    intros H. apply IH in H. lia.
Qed.

Lemma digits_length (s d r : pystr) :
  digits s = (d, r) -> len s = len d + len r.
Proof.
  revert d r. induction s as [|c s IH]; intros d r; simpl.
  - intros H. now injection H as <- <-.
  - destruct (is_digit c).
    + destruct (digits s) as [d' r'] eqn:E. intros H. injection H as <- <-.
      specialize (IH _ _ eq_refl). simpl. lia.
    + intros H. now injection H as <- <-.
Qed.

Lemma match_integer_length (s i r : pystr) :
  match_integer s = Some (i, r) -> len r < len s.
Proof.
  unfold match_integer.
  assert (H0 : forall sign s1, len s1 <= len s ->
    match s1 with
    | c :: s2 =>
        if is_char "0" c then Some (sign ++ [c], s2)
        else if is_digit c
             then let (d, r0) := digits s2 in Some (sign ++ c :: d, r0)
             else None
    | [] => None
    end = Some (i, r) -> len r < len s).
  { intros sign [|c s2] Hle; [discriminate|]. simpl in Hle.
    destruct (is_char "0" c).
    - intros H. injection H as <- <-. lia.
    - destruct (is_digit c); [|discriminate].
      destruct (digits s2) as [d r0] eqn:E. apply digits_length in E.
      intros H. injection H as <- <-. lia. }
  destruct s as [|c s']; [simpl; discriminate|].
  destruct (is_char "-" c); [apply (H0 [c] s')|apply (H0 [] (c :: s'))];
    simpl; lia.
Qed.

Lemma match_frac_length (s f r : pystr) :
  match_frac s = Some (f, r) -> len r <= len s.
Proof.
  unfold match_frac. destruct s as [|c s]; [discriminate|].
  destruct (is_char "." c); [|discriminate].
  destruct (digits s) as [[|d0 d] r0] eqn:E; [discriminate|].
  apply digits_length in E. intros H. injection H as <- <-. simpl in *. lia.
Qed.

Lemma match_exp_length (s e r : pystr) :
  match_exp s = Some (e, r) -> len r <= len s.
Proof.
  unfold match_exp. destruct s as [|c s]; [discriminate|].
  destruct (is_char "e" c || is_char "E" c); [|discriminate].
  assert (H0 : forall sign s1, len s1 <= len s ->
    match digits s1 with
    | (d0 :: d, r0) => Some (c :: sign ++ d0 :: d, r0)
    | ([], _) => None
    end = Some (e, r) -> len r <= len (c :: s)).
  { intros sign s1 Hle. destruct (digits s1) as [[|d0 d] r0] eqn:E; [discriminate|].
    apply digits_length in E. intros H. injection H as <- <-. simpl in *. lia. }
  destruct s as [|c' s'']; [apply (H0 [] []); simpl; lia|].
  destruct (is_char "-" c' || is_char "+" c');
    [apply (H0 [c'] s'')|apply (H0 [] (c' :: s''))]; simpl; lia.
Qed.

Lemma match_number_length (s : pystr) (v : pyobj) (r : pystr) :
  match_number s = Some (v, r) -> len r < len s.
Proof.
  unfold match_number.
  destruct (match_integer s) as [[i r0]|] eqn:Ei; [|discriminate].
  apply match_integer_length in Ei.
  destruct (match_frac r0) as [[f r1]|] eqn:Ef.
  - apply match_frac_length in Ef.
    destruct (match_exp r1) as [[e r2]|] eqn:Ee.
    + apply match_exp_length in Ee.
      destruct (nonempty f || nonempty e); intros H; injection H as <- <-; lia.
    + destruct (nonempty f || nonempty []); intros H; injection H as <- <-; lia.
  - destruct (match_exp r0) as [[e r2]|] eqn:Ee.
    + apply match_exp_length in Ee.
      destruct (nonempty [] || nonempty e); intros H; injection H as <- <-; lia.
    + cbn. intros H; injection H as <- <-; lia.
Qed.

Lemma constant_length (lit : string) (v0 : pyobj) (s : pystr) (v : pyobj) (r : pystr) :
  py lit <> [] -> constant lit v0 s = Some (v, r) -> len r < len s.
Proof.
  unfold constant. intros Hl.
  destruct (starts_with (py lit) s) as [r0|] eqn:E; [|discriminate].
  apply starts_with_length in E. intros H. injection H as <- <-.
  destruct (py lit); [congruence|]. simpl in E. lia.
Qed.

Lemma scan_atom_length (s : pystr) (v : pyobj) (r : pystr) :
  scan_atom s = Parsed v r -> len r < len s.
Proof.
  unfold scan_atom.
  repeat match goal with
  | |- context [constant ?l ?v0 s] =>
      let E := fresh "E" in
      destruct (constant l v0 s) as [[? ?]|] eqn:E;
      [apply constant_length in E; [|discriminate];
       intros H; injection H as <- <-; exact E|]
  | |- context [match_number s] =>
      let E := fresh "E" in
      destruct (match_number s) as [[? ?]|] eqn:E;
      [apply match_number_length in E;
       intros H; injection H as <- <-; exact E|]
  end.
  discriminate.
Qed.

Lemma push_length (c : char) (o : option (pystr * pystr)) (str r : pystr) (k : nat) :
  (forall str' r', o = Some (str', r') -> len r' < k) ->
  push c o = Some (str, r) -> len r < k.
Proof.
  intros H. destruct o as [[str' r']|]; simpl; [|discriminate].
  intros E. injection E as <- <-. now apply (H str').
Qed.

Lemma scanstring_length (s str r : pystr) :
  scanstring s = Some (str, r) -> len r < len s.
Proof.
  remember (len s) as k eqn:Hk. revert s str r Hk.
  induction k as [k IH] using lt_wf_ind. intros s str r -> .
  assert (REC : forall c t str' r', len t < len s ->
            push c (scanstring t) = Some (str', r') -> len r' < len s).
  { intros c t str' r' Hlt. apply push_length.
    intros str0 r0 E. apply (IH _ Hlt _ _ _ eq_refl) in E. lia. }
  destruct s as [|c s1]; cbn [scanstring]; [discriminate|].
  destruct (char_eqb c dquote).
  { intros H. injection H as <- <-. simpl. lia. }
  destruct (is_char "\" c).
  - destruct s1 as [|esc s2]; [discriminate|].
    destruct (is_char "u" esc).
    + destruct s2 as [|a [|b [|c' [|d s3]]]]; try discriminate.
      destruct (decode_uXXXX a b c' d) as [uni|]; [|discriminate].
      destruct (high_surrogate uni).
      * destruct s3 as [|bs [|u s4]];
          try (apply REC; simpl; lia).
        destruct (is_char "\" bs && is_char "u" u);
          [|apply REC; simpl; lia].
        destruct s4 as [|e [|f [|g [|h s5]]]]; try discriminate.
        destruct (decode_uXXXX e f g h) as [uni2|]; [|discriminate].
        destruct (low_surrogate uni2); apply REC; simpl; lia.
      * apply REC; simpl; lia.
    + destruct (BACKSLASH esc); [|discriminate]. apply REC; simpl; lia.
  - destruct (c <? 32)%N; [discriminate|]. apply REC; simpl; lia.
Qed.

(** With a counter above twice the length of the input, each of the three
    mutually recursive parts ends before the counter does, and what it
    leaves is shorter than what it was given. *)
Lemma scan_once_enough (n : nat) :
  (forall s, 2 * len s < n ->
     scan_once n s <> Exhausted /\
     forall v r, scan_once n s = Parsed v r -> len r < len s)
  /\ (forall pairs s, 2 * len s + 1 < n ->
     object_members n pairs s <> Exhausted /\
     forall v r, object_members n pairs s = Parsed v r -> len r < len s)
  /\ (forall values s, 2 * len s + 1 < n ->
     array_items n values s <> Exhausted /\
     forall v r, array_items n values s = Parsed v r -> len r < len s).
Proof.
  induction n as [|n [IHs [IHo IHa]]].
  { repeat split; intros; lia. }
  split; [|split].
  - (* scan_once *)
    intros s Hn. destruct s as [|c s']; cbn [scan_once].
    { split; [discriminate|discriminate]. }
    simpl in Hn.
    destruct (char_eqb c dquote).
    { destruct (scanstring s') as [[str r]|] eqn:E.
      - apply scanstring_length in E. split; [discriminate|].
        intros v r0 H. injection H as <- <-. simpl. lia.
      - split; discriminate. }
    destruct (is_char "{" c).
    { pose proof (skip_ws_length s') as Hw.
      destruct (skip_ws s') as [|c1 s1]; [split; discriminate|].
      simpl in Hw.
      destruct (is_char "}" c1).
      { split; [discriminate|]. intros v r H. injection H as <- <-. simpl. lia. }
      destruct (char_eqb c1 dquote); [|split; discriminate].
      destruct (IHo [] s1) as [Hne Hlen]; [lia|].
      split; [exact Hne|]. intros v r H. apply Hlen in H. simpl. lia. }
    destruct (is_char "[" c).
    { pose proof (skip_ws_length s') as Hw.
      destruct (skip_ws s') as [|c1 s1]; [split; discriminate|].
      simpl in Hw.
      destruct (is_char "]" c1).
      { split; [discriminate|]. intros v r H. injection H as <- <-. simpl. lia. }
      destruct (IHa [] (c1 :: s1)) as [Hne Hlen]; [simpl; lia|].
      split; [exact Hne|]. intros v r H. apply Hlen in H. simpl in *. lia. }
    split.
    + destruct (scan_atom (c :: s')) eqn:E; try discriminate.
      unfold scan_atom in E.
      repeat match type of E with
      | context [match ?x with _ => _ end] => destruct x as [[? ?]|]; try discriminate
      end.
    + intros v r H. now apply scan_atom_length in H.
  - (* object_members *)
    intros pairs s Hn. cbn [object_members].
    destruct (scanstring s) as [[key r]|] eqn:Ek; [|split; discriminate].
    apply scanstring_length in Ek.
    pose proof (skip_ws_length r) as Hw.
    destruct (skip_ws r) as [|c r1]; [split; discriminate|]. simpl in Hw.
    destruct (is_char ":" c); [|split; discriminate].
    pose proof (skip_ws_length r1) as Hw1.
    destruct (IHs (skip_ws r1)) as [Hne Hlen]; [lia|].
    destruct (scan_once n (skip_ws r1)) as [v r2| |] eqn:Ev;
      [|split; discriminate|congruence].
    specialize (Hlen _ _ eq_refl).
    pose proof (skip_ws_length r2) as Hw2.
    destruct (skip_ws r2) as [|c2 r3]; [split; discriminate|]. simpl in Hw2.
    destruct (is_char "}" c2).
    { split; [discriminate|]. intros v0 r0 H. injection H as <- <-. lia. }
    destruct (is_char "," c2); [|split; discriminate].
    pose proof (skip_ws_length r3) as Hw3.
    destruct (skip_ws r3) as [|c3 r4]; [split; discriminate|]. simpl in Hw3.
    destruct (char_eqb c3 dquote); [|split; discriminate].
    destruct (IHo (pairs ++ [(key, v)]) r4) as [Hne' Hlen']; [lia|].
    split; [exact Hne'|]. intros v0 r0 H. apply Hlen' in H. lia.
  - (* array_items *)
    intros values s Hn. cbn [array_items].
    destruct (IHs s) as [Hne Hlen]; [lia|].
    destruct (scan_once n s) as [v r| |] eqn:Ev;
      [|split; discriminate|congruence].
    specialize (Hlen _ _ eq_refl).
    pose proof (skip_ws_length r) as Hw.
    destruct (skip_ws r) as [|c r1]; [split; discriminate|]. simpl in Hw.
    destruct (is_char "]" c).
    { split; [discriminate|]. intros v0 r0 H. injection H as <- <-. lia. }
    destruct (is_char "," c); [|split; discriminate].
    pose proof (skip_ws_length r1) as Hw1.
    destruct (IHa (values ++ [v]) (skip_ws r1)) as [Hne' Hlen']; [lia|].
    split; [exact Hne'|]. intros v0 r0 H. apply Hlen' in H. lia.
Qed.

Lemma decode_not_exhausted (s : pystr) :
  scan_once (enough s) (skip_ws s) <> Exhausted.
Proof.
  apply (proj1 (scan_once_enough (enough s))).
  pose proof (skip_ws_length s). unfold enough. lia.
Qed.

(** A text that opens with a brace decodes to a [dict] or not at all. *)
Lemma object_members_dict (n : nat) (pairs : list (pystr * pyobj)) (s : pystr)
  (v : pyobj) (r : pystr) :
  object_members n pairs s = Parsed v r -> is_dict v = true.
Proof.
  revert pairs s. induction n as [|n IH]; intros pairs s; cbn [object_members];
    [discriminate|].
  destruct (scanstring s) as [[key r0]|]; [|discriminate].
  destruct (skip_ws r0) as [|c r1]; [discriminate|].
  destruct (is_char ":" c); [|discriminate].
  destruct (scan_once n (skip_ws r1)) as [v1 r2| |]; try discriminate.
  destruct (skip_ws r2) as [|c2 r3]; [discriminate|].
  destruct (is_char "}" c2).
  { intros H. now injection H as <- <-. }
  destruct (is_char "," c2); [|discriminate].
  destruct (skip_ws r3) as [|c3 r4]; [discriminate|].
  destruct (char_eqb c3 dquote); [|discriminate].
  apply IH.
Qed.

Lemma json_loads_brace_dict (s : pystr) (v : pyobj) :
  json_loads (ch "{" :: s) = Ok v -> is_dict v = true.
Proof.
  assert (H0 : forall n, match scan_once n (ch "{" :: s) with
                         | Parsed v' _ => is_dict v' = true
                         | _ => True
                         end).
  { intros [|n]; [exact I|]. cbn [scan_once].
    change (char_eqb (ch "{") dquote) with false.
    change (is_char "{" (ch "{")) with true. cbv iota.
    destruct (skip_ws s) as [|c1 s1]; [exact I|].
    destruct (is_char "}" c1); [reflexivity|].
    destruct (char_eqb c1 dquote); [|exact I].
    destruct (object_members n [] s1) as [v1 r| |] eqn:E; try exact I.
    now apply object_members_dict in E. }
  unfold json_loads. change (ch "{" =? 65279)%N with false. cbv iota.
  unfold decode. cbn [skip_ws].
  change (is_json_ws (ch "{")) with false. cbv iota.
  specialize (H0 (enough (ch "{" :: s))).
  destruct (scan_once (enough (ch "{" :: s)) (ch "{" :: s)) as [v' r| |];
    try discriminate.
  destruct (skip_ws r); [|discriminate]. intros H. now injection H as <-.
Qed.

(** ** [strip] leaves a trimmed string *)

Lemma rstrip_cons (c : char) (t : pystr) :
  rstrip (c :: t) =
  if blank t then (if isspace c then [] else [c]) else c :: rstrip t.
Proof.
  unfold rstrip. cbn [rev].
  destruct (blank t) eqn:Et.
  - rewrite lstrip_app_blank by now rewrite blank_rev.
    cbn. now destruct (isspace c).
  - rewrite lstrip_not_blank_app by now rewrite blank_rev.
    now rewrite rev_app_distr.
Qed.

Lemma rstrip_last (s : pystr) (d : char) :
  rstrip s <> [] -> isspace (last (rstrip s) d) = false.
Proof.
  unfold rstrip. intros H.
  pose proof (lstrip_head (rev s)) as Hh.
  destruct (lstrip (rev s)) as [|c t]; [now elim H|].
  cbn [rev]. now rewrite last_last.
Qed.

Lemma trimmed_strip (s : pystr) : trimmed (strip s) = true.
Proof.
  unfold strip.
  pose proof (lstrip_head s) as Hh.
  destruct (lstrip s) as [|c t] eqn:El; [reflexivity|].
  pose proof (rstrip_last (c :: t) c) as Hl.
  rewrite rstrip_cons in *. rewrite Hh in *.
  destruct (blank t).
  - cbn. now rewrite Hh.
  - cbn [trimmed]. rewrite Hh. cbn [negb andb]. rewrite Hl; [reflexivity|discriminate].
Qed.

(** ** Properties of [extract_text_from_pdf] *)

(** C3. When the text-layer stage runs to its end and the text it produced
    is not blank, [extract_text_from_pdf] returns exactly that text and has
    made the calls of the text-layer stage only, none of the OCR stage; and
    the OCR stage is entered exactly when the text-layer stage yielded
    nothing: it raised, or its text was empty or whitespace only. *)
Theorem text_layer_skips_ocr (w : world) (pdf_path : pystr) :
  (forall t, text_layer w pdf_path = Ret t -> nonempty (strip t) = true ->
     extract_text_from_pdf w pdf_path = (Ret (Some t), text_layer_calls w pdf_path)
     /\ ocr_invoked (snd (extract_text_from_pdf w pdf_path)) = false)
  /\ ocr_invoked (snd (extract_text_from_pdf w pdf_path))
     = yields_nothing (text_layer w pdf_path).
Proof.
  rewrite extract_text_from_pdf_run. split.
  - intros t Ht Hs. rewrite Ht. cbn [yields_nothing]. rewrite Hs. cbn [negb].
    rewrite (text_layer_Ret_partial _ _ _ Ht). split; [reflexivity|].
    apply text_layer_calls_not_ocr.
  - destruct (yields_nothing (text_layer w pdf_path)); cbn [negb snd].
    + apply ocr_calls_invoked.
    + apply text_layer_calls_not_ocr.
Qed.

Lemma text_layer_skips_ocr_witness :
  extract_text_from_pdf authored_pdf uploaded_resume
  = (Ret (Some (py " Hello" ++ nl)),
     [Called_pdfplumber_open; Called_extract_text; Called_extract_text])
  /\ ocr_invoked (snd (extract_text_from_pdf authored_pdf uploaded_resume)) = false.
Proof.
  apply (proj1 (text_layer_skips_ocr authored_pdf uploaded_resume));
    reflexivity.
Defined.

(** C4, as stated, fails: on a file whose first page has text, whose second
    page makes the text-layer stage raise and which cannot be rendered for
    OCR, both stages have failed, yet the function returns the text of the
    first page and not the empty string. *)
Lemma total_failure_keeps_partial_text :
  yields_nothing (text_layer damaged_unrenderable_pdf uploaded_resume) = true
  /\ yields_nothing (ocr_layer damaged_unrenderable_pdf uploaded_resume) = true
  /\ fst (extract_text_from_pdf damaged_unrenderable_pdf uploaded_resume)
     = Ret (Some (py "Hello"))
  /\ fst (extract_text_from_pdf damaged_unrenderable_pdf uploaded_resume)
     <> Ret (Some []).
Proof. repeat split; try reflexivity. discriminate. Qed.

(** C4, amended. [extract_text_from_pdf] never raises: for every world and
    path it returns a string; and when neither stage has appended anything
    but whitespace to [text] before it ended or raised, that string is
    empty. *)
Theorem extract_never_raises (w : world) (pdf_path : pystr) :
  (exists s, fst (extract_text_from_pdf w pdf_path) = Ret (Some s))
  /\ (blank (text_layer_partial w pdf_path) = true ->
      blank (ocr_partial w pdf_path) = true ->
      fst (extract_text_from_pdf w pdf_path) = Ret (Some [])).
Proof.
  rewrite extract_text_from_pdf_run. split.
  - destruct (negb (yields_nothing (text_layer w pdf_path))); eexists; reflexivity.
  - intros H1 H2.
    destruct (text_layer w pdf_path) as [t|] eqn:Et; cbn [yields_nothing].
    + rewrite (text_layer_Ret_partial _ _ _ Et) in *.
      rewrite nonempty_strip_blank, H1. cbn [negb fst].
      now rewrite strip_app_blank.
    + cbn [negb fst]. now rewrite strip_app_blank.
Qed.

Lemma extract_never_raises_witness :
  (exists s, fst (extract_text_from_pdf unreadable_file uploaded_resume) = Ret (Some s))
  /\ fst (extract_text_from_pdf unreadable_file uploaded_resume) = Ret (Some []).
Proof.
  split.
  - apply (proj1 (extract_never_raises unreadable_file uploaded_resume)).
  - apply (proj2 (extract_never_raises unreadable_file uploaded_resume));
      reflexivity.
Defined.

(** C5 fails on the text-layer path: the function tests [text.strip()] but
    returns [text] itself.  For a page whose text layer is " Hello" and a
    line break the result keeps the space and the line break, whereas the
    trimmed text is "Hello". *)
Theorem text_layer_result_not_trimmed :
  fst (extract_text_from_pdf authored_pdf uploaded_resume)
    = Ret (Some (py " Hello" ++ nl))
  /\ trimmed (py " Hello" ++ nl) = false
  /\ strip (py " Hello" ++ nl) = py "Hello".
Proof. repeat split; reflexivity. Qed.

(** The other [return] of the function does trim: whatever comes back after
    the OCR stage has run is trimmed. *)
Lemma ocr_path_result_trimmed (w : world) (pdf_path : pystr) :
  yields_nothing (text_layer w pdf_path) = true ->
  exists s, fst (extract_text_from_pdf w pdf_path) = Ret (Some s)
            /\ trimmed s = true.
Proof.
  intros H. rewrite extract_text_from_pdf_run, H. cbn [negb fst].
  eexists. split; [reflexivity|apply trimmed_strip].
Qed.

(** C6, as stated, fails: the first page contributes "Hello", the second
    makes the text-layer stage raise, OCR reads "World"; the result is
    "HelloWorld", not what the OCR stage alone produced. *)
Lemma partial_text_survives_failure :
  text_layer damaged_pdf uploaded_resume = Raise
  /\ strip (ocr_partial damaged_pdf uploaded_resume) = py "World"
  /\ fst (extract_text_from_pdf damaged_pdf uploaded_resume)
     = Ret (Some (py "HelloWorld"))
  /\ fst (extract_text_from_pdf damaged_pdf uploaded_resume)
     <> Ret (Some (strip (ocr_partial damaged_pdf uploaded_resume))).
Proof. repeat split; try reflexivity. discriminate. Qed.

(** C6, amended. When the text-layer stage raises, the failure is swallowed
    and the text appended before it is kept: the result is the trimmed
    concatenation of that text and the text of the OCR stage.  It is the
    trimmed OCR text alone when the text-layer stage had appended nothing
    but whitespace. *)
Theorem failed_text_layer_keeps_partial (w : world) (pdf_path : pystr) :
  text_layer w pdf_path = Raise ->
  fst (extract_text_from_pdf w pdf_path)
    = Ret (Some (strip (text_layer_partial w pdf_path ++ ocr_partial w pdf_path)))
  /\ (blank (text_layer_partial w pdf_path) = true ->
      fst (extract_text_from_pdf w pdf_path)
        = Ret (Some (strip (ocr_partial w pdf_path)))).
Proof.
  intros H. rewrite extract_text_from_pdf_run, H. cbn [yields_nothing negb fst].
  split; [reflexivity|]. intros Hb. now rewrite strip_app_blank_l.
Qed.

Lemma failed_text_layer_keeps_partial_witness :
  fst (extract_text_from_pdf damaged_pdf uploaded_resume)
    = Ret (Some (strip (text_layer_partial damaged_pdf uploaded_resume
                        ++ ocr_partial damaged_pdf uploaded_resume)))
  /\ fst (extract_text_from_pdf unparsable_scan uploaded_resume)
     = Ret (Some (strip (ocr_partial unparsable_scan uploaded_resume))).
Proof.
  split.
  - apply (proj1 (failed_text_layer_keeps_partial damaged_pdf uploaded_resume
                    eq_refl)).
  - apply (proj2 (failed_text_layer_keeps_partial unparsable_scan uploaded_resume
                    eq_refl)).
    reflexivity.
Defined.

(** ** Properties of [analyze_resume] *)

(** Once the model has answered, the function is its parsing step. *)
Lemma analyze_resume_reply (generate_content : pystr -> result pystr)
  (resume_text : pystr) (job_description : option pystr) (reply : pystr) :
  generate_content (prompt resume_text job_description) = Ok reply ->
  analyze_resume generate_content resume_text job_description = parse_reply reply.
Proof. unfold analyze_resume. now intros ->. Qed.

(** The parsing step in the words of the specification: the whole reply
    first, then the text from the first opening brace to the last closing
    brace. *)
Lemma parse_reply_steps (reply : pystr) :
  parse_reply reply =
  match json_loads reply with
  | Ok v => Ok v
  | Err _ =>
      match first_brace_to_last_brace reply with
      | Some m => json_loads m
      | None => Err not_valid_json
      end
  end.
Proof. unfold parse_reply. now rewrite re_search_brace. Qed.

(** C1, as stated, fails: the record of the end-to-end scenario is valid
    and MatchResult-shaped, but behind prose that contains a brace of its
    own the match starts at that brace, the second [json.loads] raises and
    no record is returned. *)
Lemma prose_with_brace_breaks_recovery :
  json_loads good_reply = Ok good_record
  /\ MatchResult_shaped good_record = true
  /\ parse_reply good_reply = Ok good_record
  /\ first_brace_to_last_brace (py "Note {draft}: " ++ good_reply)
     = Some (py "{draft}: " ++ good_reply)
  /\ parse_reply (py "Note {draft}: " ++ good_reply) = Err JSONDecodeError.
Proof. repeat split; vm_compute; reflexivity. Qed.

(** Prose can also turn the reply into another JSON document: in square
    brackets the whole reply decodes, to a list. *)
Lemma brackets_change_the_result :
  parse_reply (py "[" ++ good_reply ++ py "]") = Ok (PyList [good_record]).
Proof. vm_compute. reflexivity. Qed.

(** C1, amended. The parsing step returns the decoding of the whole reply
    when the whole reply decodes, and otherwise decodes the text from the
    first opening brace to the last closing brace.  Hence a valid JSON text
    that is the whole reply is returned as its value; and a valid JSON
    object text, from its opening to its closing brace, is returned as its
    record also when it is wrapped in prose that has no opening brace
    before it, no closing brace after it, and does not make the whole reply
    decode. *)
Theorem parse_reply_recovers_object :
  (forall reply,
     parse_reply reply =
     match json_loads reply with
     | Ok v => Ok v
     | Err _ =>
         match first_brace_to_last_brace reply with
         | Some m => json_loads m
         | None => Err not_valid_json
         end
     end)
  /\ (forall bare v, json_loads bare = Ok v -> parse_reply bare = Ok v)
  /\ (forall pre mid suf v,
      json_loads (ch "{" :: mid ++ [ch "}"]) = Ok v ->
      existsb (is_char "{") pre = false ->
      existsb (is_char "}") suf = false ->
      failed (json_loads (pre ++ (ch "{" :: mid ++ [ch "}"]) ++ suf)) = true ->
      parse_reply (pre ++ (ch "{" :: mid ++ [ch "}"]) ++ suf) = Ok v
      /\ is_dict v = true).
Proof.
  split; [exact parse_reply_steps|]. split.
  - intros bare v Hv. unfold parse_reply. now rewrite Hv.
  - intros pre mid suf v Hv Hpre Hsuf Hwhole. split.
    + rewrite parse_reply_steps.
      destruct (json_loads (pre ++ (ch "{" :: mid ++ [ch "}"]) ++ suf));
        [discriminate|].
      now rewrite first_brace_to_last_brace_wrapped.
    + exact (json_loads_brace_dict _ _ Hv).
Qed.

Lemma parse_reply_recovers_object_witness :
  parse_reply good_reply = Ok good_record
  /\ parse_reply ((py "Here is the result:" ++ nl)
                  ++ (ch "{" :: good_fields ++ [ch "}"])
                  ++ (nl ++ py "Thanks.")) = Ok good_record
  /\ is_dict good_record = true.
Proof.
  assert (H : json_loads (ch "{" :: good_fields ++ [ch "}"]) = Ok good_record)
    by (vm_compute; reflexivity).
  split.
  - apply (proj1 (proj2 parse_reply_recovers_object) good_reply good_record).
    exact H.
  - apply (proj2 (proj2 parse_reply_recovers_object)
             (py "Here is the result:" ++ nl) good_fields
             (nl ++ py "Thanks.") good_record H);
      vm_compute; reflexivity.
Defined.

(** C2, as stated, fails: the reply 42 contains no brace at all, so no
    brace-delimited substring, yet it is JSON and the function returns the
    number instead of raising. *)
Lemma braceless_reply_is_returned :
  existsb (is_char "{") (py "42") = false
  /\ first_brace_to_last_brace (py "42") = None
  /\ analyze_resume (replies (py "42")) sample_resume (Some sample_job)
     = Ok (PyInt 42).
Proof. repeat split; vm_compute; reflexivity. Qed.

(** C2, amended. After the model has answered, [analyze_resume] raises if
    and only if neither the whole reply nor the text from the first opening
    brace to the last closing brace decodes as JSON.  When the whole reply
    does not decode and it has no such text, what is raised is the
    function's own [ValueError]; when it has such a text, the function ends
    as the second [json.loads] ends on it, returning its value or letting
    its exception through unchanged.  In particular a reply that has no
    such text, and is not JSON as a whole, makes [analyze_resume] raise its
    [ValueError]. *)
Theorem analyze_resume_raises_iff (generate_content : pystr -> result pystr)
  (resume_text : pystr) (job_description : option pystr) (reply : pystr) :
  generate_content (prompt resume_text job_description) = Ok reply ->
  (failed (analyze_resume generate_content resume_text job_description) = true
   <-> failed (json_loads reply) = true
       /\ forall m, first_brace_to_last_brace reply = Some m ->
                    failed (json_loads m) = true)
  /\ (failed (json_loads reply) = true ->
      first_brace_to_last_brace reply = None ->
      analyze_resume generate_content resume_text job_description
        = Err not_valid_json)
  /\ (forall m, failed (json_loads reply) = true ->
      first_brace_to_last_brace reply = Some m ->
      analyze_resume generate_content resume_text job_description
        = json_loads m).
Proof.
  intros Hg. rewrite (analyze_resume_reply _ _ _ _ Hg).
  split; [|split].
  - rewrite parse_reply_steps.
    destruct (json_loads reply) as [v|e]; cbn [failed].
    + split; [discriminate|intros [H _]; discriminate].
    + destruct (first_brace_to_last_brace reply) as [m|].
      * split.
        -- intros H. split; [reflexivity|]. intros m' E. now injection E as <-.
        -- intros [_ H]. now apply H.
      * split; [|reflexivity]. intros _. split; [reflexivity|discriminate].
  - intros Hw Hn. rewrite parse_reply_steps, Hn.
    now destruct (json_loads reply).
  - intros m Hw Hm. rewrite parse_reply_steps, Hm.
    now destruct (json_loads reply).
Qed.

Lemma analyze_resume_raises_iff_witness :
  analyze_resume (replies (py "I cannot process this.")) sample_resume None
    = Err not_valid_json
  /\ analyze_resume (replies (py "{draft}")) sample_resume None
     = json_loads (py "{draft}").
Proof.
  split.
  - apply (proj1 (proj2 (analyze_resume_raises_iff
      (replies (py "I cannot process this.")) sample_resume None
      (py "I cannot process this.") eq_refl)));
      vm_compute; reflexivity.
  - apply (proj2 (proj2 (analyze_resume_raises_iff
      (replies (py "{draft}")) sample_resume None (py "{draft}") eq_refl))
      (py "{draft}")); vm_compute; reflexivity.
Defined.

(** C7. A job description that is exactly the text "Not provided" gives,
    character for character, the prompt of a call without job description,
    and so the same call of the model and the same result. *)
Theorem sentinel_job_description_same_prompt
  (generate_content : pystr -> result pystr) (resume_text : pystr) :
  prompt resume_text (Some (py "Not provided")) = prompt resume_text None
  /\ analyze_resume generate_content resume_text (Some (py "Not provided"))
     = analyze_resume generate_content resume_text None.
Proof.
  assert (H : prompt resume_text (Some (py "Not provided"))
              = prompt resume_text None) by reflexivity.
  split; [exact H|]. unfold analyze_resume. now rewrite H.
Qed.

(** C8. Whatever value the reply decodes to, as a whole or through the
    recovery of the brace-delimited text, is what [analyze_resume] returns;
    nothing looks at its fields.  The reply [malformed_reply], with a score
    of 150, a string for a score and values outside both enumerations, is
    returned as it is decoded, bare or behind prose. *)
Theorem analyze_resume_returns_unvalidated :
  (forall generate_content resume_text job_description reply v,
     generate_content (prompt resume_text job_description) = Ok reply ->
     json_loads reply = Ok v ->
     analyze_resume generate_content resume_text job_description = Ok v)
  /\ (forall generate_content resume_text job_description reply m v,
     generate_content (prompt resume_text job_description) = Ok reply ->
     failed (json_loads reply) = true ->
     re_search brace_pattern reply = Some m ->
     json_loads m = Ok v ->
     analyze_resume generate_content resume_text job_description = Ok v)
  /\ (json_loads malformed_reply = Ok malformed_record
      /\ MatchResult_shaped malformed_record = false
      /\ analyze_resume (replies malformed_reply) sample_resume (Some sample_job)
         = Ok malformed_record
      /\ analyze_resume (replies (py "Result: " ++ malformed_reply))
           sample_resume (Some sample_job)
         = Ok malformed_record).
Proof.
  split; [|split].
  - intros g r j reply v Hg Hv.
    rewrite (analyze_resume_reply _ _ _ _ Hg). unfold parse_reply. now rewrite Hv.
  - intros g r j reply m v Hg Hw Hm Hv.
    rewrite (analyze_resume_reply _ _ _ _ Hg). unfold parse_reply.
    destruct (json_loads reply); [discriminate|]. now rewrite Hm.
  - repeat split; vm_compute; reflexivity.
Qed.

Lemma analyze_resume_returns_unvalidated_witness :
  analyze_resume (replies malformed_reply) sample_resume None = Ok malformed_record
  /\ analyze_resume (replies (py "Result: " ++ malformed_reply)) sample_resume None
     = Ok malformed_record.
Proof.
  split.
  - apply (proj1 analyze_resume_returns_unvalidated
             (replies malformed_reply) sample_resume None malformed_reply
             malformed_record eq_refl).
    vm_compute; reflexivity.
  - apply (proj1 (proj2 analyze_resume_returns_unvalidated)
             (replies (py "Result: " ++ malformed_reply)) sample_resume None
             (py "Result: " ++ malformed_reply) malformed_reply
             malformed_record eq_refl);
      vm_compute; reflexivity.
Defined.

(** The prompt is a fixed text around the two inputs. *)
Lemma prompt_parts (resume_text : pystr) (job_description : option pystr) :
  prompt resume_text job_description
  = prompt_head ++ resume_text ++ job_description_heading
    ++ job_description_slot job_description ++ prompt_tail.
Proof.
  unfold prompt, prompt_head, job_description_heading, prompt_tail.
  repeat rewrite <- app_assoc. reflexivity.
Qed.

(** C9. An empty job description is treated as an absent one: the prompt
    built for it is the fixed head, the resume, the "Job Description:"
    heading, the text "Not provided" in the job-description slot and the
    fixed tail; it equals the prompt of a call without job description, so
    the two calls end alike. *)
Theorem empty_job_description_same_prompt
  (generate_content : pystr -> result pystr) (resume_text : pystr) :
  prompt resume_text (Some [])
    = prompt_head ++ resume_text ++ job_description_heading
      ++ py "Not provided" ++ prompt_tail
  /\ job_description_slot (Some []) = py "Not provided"
  /\ prompt resume_text (Some []) = prompt resume_text None
  /\ analyze_resume generate_content resume_text (Some [])
     = analyze_resume generate_content resume_text None.
Proof.
  assert (H : prompt resume_text (Some []) = prompt resume_text None)
    by reflexivity.
  split; [exact (prompt_parts resume_text (Some []))|].
  split; [reflexivity|]. split; [exact H|].
  unfold analyze_resume. now rewrite H.
Qed.

(** C10. The decoded value is never checked to be an object: when the whole
    reply decodes to a value that is not a [dict], [analyze_resume] returns
    that value, which is no MatchResult. *)
Theorem analyze_resume_returns_non_object
  (generate_content : pystr -> result pystr) (resume_text : pystr)
  (job_description : option pystr) (reply : pystr) (v : pyobj) :
  generate_content (prompt resume_text job_description) = Ok reply ->
  json_loads reply = Ok v ->
  is_dict v = false ->
  analyze_resume generate_content resume_text job_description = Ok v
  /\ MatchResult_shaped v = false.
Proof.
  intros Hg Hv Hd. rewrite (analyze_resume_reply _ _ _ _ Hg).
  unfold parse_reply. rewrite Hv. split; [reflexivity|].
  now destruct v.
Qed.

Lemma analyze_resume_returns_non_object_witness :
  (analyze_resume (replies (py "42")) sample_resume None = Ok (PyInt 42)
   /\ MatchResult_shaped (PyInt 42) = false)
  /\ (analyze_resume (replies (quoted "Sorry")) sample_resume None
      = Ok (PyStr (py "Sorry"))
      /\ MatchResult_shaped (PyStr (py "Sorry")) = false)
  /\ (analyze_resume (replies (py "[85, 90]")) sample_resume None
      = Ok (PyList [PyInt 85; PyInt 90])
      /\ MatchResult_shaped (PyList [PyInt 85; PyInt 90]) = false).
Proof.
  split; [|split].
  - apply (analyze_resume_returns_non_object (replies (py "42")) sample_resume
             None (py "42") (PyInt 42) eq_refl); vm_compute; reflexivity.
  - apply (analyze_resume_returns_non_object (replies (quoted "Sorry"))
             sample_resume None (quoted "Sorry") (PyStr (py "Sorry")) eq_refl);
      vm_compute; reflexivity.
  - apply (analyze_resume_returns_non_object (replies (py "[85, 90]"))
             sample_resume None (py "[85, 90]") (PyList [PyInt 85; PyInt 90])
             eq_refl); vm_compute; reflexivity.
Defined.

(** The end-to-end scenario of the specification. *)
Example end_to_end :
  analyze_resume (replies good_reply) sample_resume (Some sample_job)
    = Ok good_record
  /\ dict_get (match good_record with PyDict d => d | _ => [] end)
       (py "final_decision") = Some (PyStr (py "Shortlist"))
  /\ dict_get (match good_record with PyDict d => d | _ => [] end)
       (py "overall_match_score") = Some (PyInt 85).
Proof. repeat split; vm_compute; reflexivity. Qed.

(** A scanned document comes back as its trimmed OCR text. *)
Example scanned_pdf_uses_ocr :
  extract_text_from_pdf scanned_pdf uploaded_resume
  = (Ret (Some (py "World")),
     [Called_pdfplumber_open; Called_extract_text;
      Called_convert_from_path; Called_image_to_string]).
Proof. reflexivity. Qed.
(** * Further properties *)

(** ** [extract_text_from_pdf]: what comes back, and which calls it costs *)

Lemma blank_partial_yields_nothing (w : world) (pdf_path : pystr) :
  blank (text_layer_partial w pdf_path) = true ->
  yields_nothing (text_layer w pdf_path) = true.
Proof.
  intros Hb. destruct (text_layer w pdf_path) as [t|] eqn:Et; [|reflexivity].
  cbn [yields_nothing]. rewrite <- (text_layer_Ret_partial _ _ _ Et).
  now rewrite nonempty_strip_blank, Hb.
Qed.

(** X1. Whenever the OCR stage has been entered, the returned string has
    no whitespace at either end. *)
Theorem ocr_result_is_trimmed (w : world) (pdf_path : pystr) :
  ocr_invoked (snd (extract_text_from_pdf w pdf_path)) = true ->
  exists s, fst (extract_text_from_pdf w pdf_path) = Ret (Some s)
            /\ trimmed s = true.
Proof.
  rewrite extract_text_from_pdf_run.
  destruct (yields_nothing (text_layer w pdf_path)); cbn [negb fst snd].
  - intros _. eexists. split; [reflexivity|apply trimmed_strip].
  - now rewrite text_layer_calls_not_ocr.
Qed.

Lemma ocr_result_is_trimmed_witness :
  exists s, fst (extract_text_from_pdf scanned_pdf uploaded_resume) = Ret (Some s)
            /\ trimmed s = true.
Proof.
  apply (ocr_result_is_trimmed scanned_pdf uploaded_resume). reflexivity.
Defined.

(** X2. The function returns the empty string exactly when neither stage
    has appended anything but whitespace: an empty result always means
    that no visible text could be obtained, and the other way round. *)
Theorem extract_empty_iff (w : world) (pdf_path : pystr) :
  fst (extract_text_from_pdf w pdf_path) = Ret (Some [])
  <-> blank (text_layer_partial w pdf_path) && blank (ocr_partial w pdf_path) = true.
Proof.
  rewrite extract_text_from_pdf_run.
  destruct (text_layer w pdf_path) as [t|] eqn:Et; cbn [yields_nothing].
  - rewrite (text_layer_Ret_partial _ _ _ Et), nonempty_strip_blank.
    destruct (blank t) eqn:Hb; cbn [negb fst andb].
    + split.
      * intros H. injection H as H. now apply strip_nil_blank in H;
          rewrite blank_app, Hb in H.
      * intros H. now rewrite strip_app_blank.
    + split; [|discriminate]. intros H. injection H as ->. discriminate.
  - cbn [negb fst]. rewrite <- blank_app. split.
    + intros H. injection H as H. now apply strip_nil_blank.
    + intros H. now rewrite strip_blank.
Qed.

(** X3. When the text layer contributes nothing visible (no text layer, a
    failure before any text, or whitespace only), the OCR stage runs and
    the result is exactly the trimmed OCR text. *)
Theorem blank_text_layer_gives_ocr_text (w : world) (pdf_path : pystr) :
  blank (text_layer_partial w pdf_path) = true ->
  fst (extract_text_from_pdf w pdf_path)
    = Ret (Some (strip (ocr_partial w pdf_path)))
  /\ ocr_invoked (snd (extract_text_from_pdf w pdf_path)) = true.
Proof.
  intros Hb. rewrite extract_text_from_pdf_run.
  rewrite (blank_partial_yields_nothing _ _ Hb). cbn [negb fst snd].
  split; [now rewrite strip_app_blank_l|apply ocr_calls_invoked].
Qed.

Lemma blank_text_layer_gives_ocr_text_witness :
  fst (extract_text_from_pdf scanned_pdf uploaded_resume)
    = Ret (Some (strip (ocr_partial scanned_pdf uploaded_resume)))
  /\ ocr_invoked (snd (extract_text_from_pdf scanned_pdf uploaded_resume)) = true.
Proof.
  apply (blank_text_layer_gives_ocr_text scanned_pdf uploaded_resume).
  reflexivity.
Defined.

Lemma pages_of_complete (vs : list pyval) : pages_complete (pages_of vs) = true.
Proof. induction vs as [|v vs IH]; [reflexivity|exact IH]. Qed.

Lemma pages_of_text (vs : list pyval) :
  pages_text (pages_of vs) = List.concat (map page_text vs).
Proof.
  induction vs as [|v vs IH]; [reflexivity|].
  change (pages_text (pages_of (v :: vs)))
    with (page_text v ++ pages_text (pages_of vs)).
  cbn [map List.concat]. now rewrite IH.
Qed.

Lemma pages_of_calls (vs : list pyval) :
  times is_extract_text_call (pages_calls (pages_of vs))
  = List.length vs + List.length (filter truthy vs).
Proof.
  unfold times. induction vs as [|v vs IH]; [reflexivity|].
  change (pages_calls (pages_of (v :: vs)))
    with ((if truthy v then [Called_extract_text; Called_extract_text]
           else [Called_extract_text]) ++ pages_calls (pages_of vs)).
  rewrite filter_app, length_app, IH.
  cbn [filter]. destruct (truthy v); cbn; lia.
Qed.

(** X4. The pages of a text-layer document are joined in page order with
    nothing between them, pages without text ([None] or the empty string)
    adding nothing: when every page extracts and the joined text is not
    blank, that joined text is the result. *)
Theorem pages_joined_in_order (w : world) (pdf_path : pystr) (vs : list pyval) :
  pdfplumber_open w pdf_path = Ret (pages_of vs) ->
  blank (List.concat (map page_text vs)) = false ->
  fst (extract_text_from_pdf w pdf_path) = Ret (Some (List.concat (map page_text vs))).
Proof.
  intros Ho Hb. rewrite extract_text_from_pdf_run.
  unfold text_layer, text_layer_partial. rewrite Ho, pages_of_complete, pages_of_text.
  cbn [yields_nothing]. now rewrite nonempty_strip_blank, Hb.
Qed.

Lemma pages_joined_in_order_witness :
  fst (extract_text_from_pdf
         {| pdfplumber_open := fun _ =>
              Ret (pages_of [Some (py "Jane Doe"); None; Some []; Some (py "Python")]);
            convert_from_path := fun _ => Raise |} uploaded_resume)
  = Ret (Some (py "Jane DoePython")).
Proof.
  apply (pages_joined_in_order
           {| pdfplumber_open := fun _ =>
                Ret (pages_of [Some (py "Jane Doe"); None; Some []; Some (py "Python")]);
              convert_from_path := fun _ => Raise |} uploaded_resume
           [Some (py "Jane Doe"); None; Some []; Some (py "Python")]);
    reflexivity.
Defined.

Lemma ocr_calls_no_extract_text (w : world) (pdf_path : pystr) :
  filter is_extract_text_call (ocr_calls w pdf_path) = [].
Proof.
  unfold ocr_calls. cbn [filter is_extract_text_call].
  destruct (convert_from_path w pdf_path) as [imgs|]; [|reflexivity].
  induction imgs as [|i imgs IH]; [reflexivity|].
  cbn [images_calls filter is_extract_text_call].
  destruct (image_to_string i); [exact IH|reflexivity].
Qed.

(** X5. [page.extract_text()] is evaluated twice on every page that has
    text and once on every other page: on a document whose pages all
    extract, the number of calls is the number of pages plus the number of
    pages with text. *)
Theorem extract_text_called_twice (w : world) (pdf_path : pystr) (vs : list pyval) :
  pdfplumber_open w pdf_path = Ret (pages_of vs) ->
  times is_extract_text_call (snd (extract_text_from_pdf w pdf_path))
  = List.length vs + List.length (filter truthy vs).
Proof.
  intros Ho. rewrite extract_text_from_pdf_run.
  assert (H : times is_extract_text_call (text_layer_calls w pdf_path)
              = List.length vs + List.length (filter truthy vs)).
  { unfold text_layer_calls. rewrite Ho. apply pages_of_calls. }
  destruct (negb (yields_nothing (text_layer w pdf_path))); cbn [snd]; [exact H|].
  unfold times in *. now rewrite filter_app, ocr_calls_no_extract_text, app_nil_r.
Qed.

Lemma extract_text_called_twice_witness :
  times is_extract_text_call
    (snd (extract_text_from_pdf authored_pdf uploaded_resume)) = 1 + 1.
Proof.
  apply (extract_text_called_twice authored_pdf uploaded_resume
           [Some (py " Hello" ++ nl)]).
  reflexivity.
Defined.



Lemma pages_calls_only_extract_text (ps : list page) :
  forallb is_extract_text_call (pages_calls ps) = true.
Proof.
  induction ps as [|p ps IH]; [reflexivity|]. cbn [pages_calls].
  destruct (extract_text p) as [v|]; [|reflexivity].
  rewrite forallb_app, IH. now destruct (truthy v).
Qed.

Lemma images_calls_only_image_to_string (imgs : list image) :
  forallb is_image_to_string_call (images_calls imgs) = true.
Proof.
  induction imgs as [|i imgs IH]; [reflexivity|]. cbn [images_calls forallb].
  destruct (image_to_string i); [exact IH|reflexivity].
Qed.




(** X7. The library calls come in stage order: [pdfplumber.open] once and
    first, then only [extract_text] calls, then, if the OCR stage runs at
    all, [convert_from_path] once followed only by [image_to_string]
    calls.  The document is never reopened and the stages never
    interleave. *)
Theorem calls_in_stage_order (w : world) (pdf_path : pystr) :
  exists l1 l2,
    snd (extract_text_from_pdf w pdf_path) = Called_pdfplumber_open :: l1 ++ l2
    /\ forallb is_extract_text_call l1 = true
    /\ (l2 = []
        \/ exists l3, l2 = Called_convert_from_path :: l3
                      /\ forallb is_image_to_string_call l3 = true).
Proof.
  rewrite extract_text_from_pdf_run.
  set (l1 := match pdfplumber_open w pdf_path with
             | Ret ps => pages_calls ps
             | Raise => []
             end).
  assert (H1 : forallb is_extract_text_call l1 = true).
  { unfold l1. destruct (pdfplumber_open w pdf_path);
      [apply pages_calls_only_extract_text|reflexivity]. }
  destruct (negb (yields_nothing (text_layer w pdf_path))); cbn [snd].
  - exists l1, []. rewrite app_nil_r. repeat split; [exact H1|now left].
  - exists l1, (ocr_calls w pdf_path). repeat split; [exact H1|]. right.
    unfold ocr_calls. eexists. split; [reflexivity|].
    destruct (convert_from_path w pdf_path);
      [apply images_calls_only_image_to_string|reflexivity].
Qed.

(** ** [analyze_resume]: the match of line 77 and what can be returned *)

Lemma from_first_split (a : ascii) (s t : pystr) :
  from_first a s = Some t ->
  exists pre t', s = pre ++ ch a :: t' /\ t = ch a :: t'
                 /\ existsb (is_char a) pre = false.
Proof.
  revert t. induction s as [|c s IH]; intros t; cbn [from_first]; [discriminate|].
  destruct (is_char a c) eqn:Ec.
  - intros H. injection H as <-. exists [], s.
    unfold is_char, char_eqb in Ec. apply N.eqb_eq in Ec. subst c.
    now repeat split.
  - intros H. destruct (IH _ H) as (pre & t' & -> & -> & Hp).
    exists (c :: pre), t'. cbn [existsb app]. rewrite Ec, Hp. now repeat split.
Qed.

Lemma upto_last_split (a : ascii) (s m : pystr) :
  upto_last a s = Some m ->
  exists mid suf, s = mid ++ ch a :: suf /\ m = mid ++ [ch a]
                  /\ existsb (is_char a) suf = false.
Proof.
  revert m. induction s as [|c s IH]; intros m; cbn [upto_last]; [discriminate|].
  destruct (upto_last a s) as [m'|] eqn:E.
  - intros H. injection H as <-.
    destruct (IH _ eq_refl) as (mid & suf & -> & -> & Hs).
    exists (c :: mid), suf. now repeat split.
  - destruct (is_char a c) eqn:Ec; [|discriminate].
    intros H. injection H as <-.
    unfold is_char, char_eqb in Ec. apply N.eqb_eq in Ec. subst c.
    exists [], s. repeat split.
    clear IH. induction s as [|d s IHs]; [reflexivity|].
    cbn [upto_last] in E. destruct (upto_last a s); [discriminate|].
    cbn [existsb]. destruct (is_char a d); [discriminate|]. now apply IHs.
Qed.

(** X8. The pattern of line 77 matches exactly the text that runs from the
    first opening brace of the reply to the last closing brace behind it:
    there is a match if and only if the reply splits into a part without
    opening brace, a brace-delimited text, and a part without closing
    brace, and the match is that brace-delimited text. *)
Theorem brace_match_characterised (s m : pystr) :
  re_search brace_pattern s = Some m
  <-> exists pre mid suf,
        s = pre ++ ch "{" :: mid ++ ch "}" :: suf
        /\ existsb (is_char "{") pre = false
        /\ existsb (is_char "}") suf = false
        /\ m = ch "{" :: mid ++ [ch "}"].
Proof.
  rewrite re_search_brace. split.
  - unfold first_brace_to_last_brace.
    destruct (from_first "{" s) as [[|c t]|] eqn:E; try discriminate.
    destruct (from_first_split _ _ _ E) as (pre & t' & -> & Ht & Hp).
    injection Ht as -> ->.
    destruct (upto_last "}" t') as [m1|] eqn:E1; [|discriminate].
    destruct (upto_last_split _ _ _ E1) as (mid & suf & -> & -> & Hs).
    intros H. injection H as <-. now exists pre, mid, suf.
  - intros (pre & mid & suf & -> & Hp & Hs & ->).
    pose proof (first_brace_to_last_brace_wrapped pre mid suf Hp Hs) as H.
    cbn [app] in H. rewrite <- app_assoc in H. cbn [app] in H. exact H.
Qed.

Lemma brace_match_starts_with_brace (s m : pystr) :
  first_brace_to_last_brace s = Some m -> exists m', m = ch "{" :: m'.
Proof.
  unfold first_brace_to_last_brace.
  destruct (from_first "{" s) as [[|c t]|] eqn:E; try discriminate.
  destruct (from_first_split _ _ _ E) as (pre & t' & _ & Ht & _).
  injection Ht as -> ->.
  destruct (upto_last "}" t') as [m1|]; [|discriminate].
  intros H. injection H as <-. now eexists.
Qed.

(** X9. [analyze_resume] returns nothing but a decoding: a returned value
    is the decoding of the whole reply of the model, or, when the whole
    reply does not decode, the decoding of the brace-delimited text in it;
    and a value that comes from this second attempt is always a [dict]. *)
Theorem analyze_resume_returns_only_decodings
  (generate_content : pystr -> result pystr) (resume_text : pystr)
  (job_description : option pystr) (v : pyobj) :
  analyze_resume generate_content resume_text job_description = Ok v ->
  exists reply,
    generate_content (prompt resume_text job_description) = Ok reply
    /\ (json_loads reply = Ok v
        \/ (failed (json_loads reply) = true
            /\ exists m, re_search brace_pattern reply = Some m
                         /\ json_loads m = Ok v
                         /\ is_dict v = true)).
Proof.
  unfold analyze_resume.
  destruct (generate_content (prompt resume_text job_description)) as [reply|e];
    [|discriminate].
  intros H. exists reply. split; [reflexivity|].
  unfold parse_reply in H.
  destruct (json_loads reply) as [v0|e0]; [left; exact H|right].
  split; [reflexivity|].
  destruct (re_search brace_pattern reply) as [m|] eqn:Em; [|discriminate].
  exists m. repeat split; [exact H|].
  rewrite re_search_brace in Em.
  destruct (brace_match_starts_with_brace _ _ Em) as [m' ->].
  exact (json_loads_brace_dict _ _ H).
Qed.

Lemma analyze_resume_returns_only_decodings_witness :
  exists reply,
    replies (py "Result: " ++ malformed_reply) (prompt sample_resume None) = Ok reply
    /\ (json_loads reply = Ok malformed_record
        \/ (failed (json_loads reply) = true
            /\ exists m, re_search brace_pattern reply = Some m
                         /\ json_loads m = Ok malformed_record
                         /\ is_dict malformed_record = true)).
Proof.
  apply (analyze_resume_returns_only_decodings
           (replies (py "Result: " ++ malformed_reply)) sample_resume None
           malformed_record).
  vm_compute. reflexivity.
Defined.



(** ** The prompt *)

(** X11. Resume and job description are put into the prompt as they are,
    complete and unescaped, with only a fixed heading between them: two
    calls that differ only in the resume, or only in what fills the
    job-description slot, never build the same prompt; but a resume that
    itself contains the heading line is indistinguishable from a shorter
    resume with a longer job description. *)
Theorem prompt_keeps_inputs_but_not_their_border :
  (forall job_description r1 r2,
     prompt r1 job_description = prompt r2 job_description -> r1 = r2)
  /\ (forall resume_text j1 j2,
     prompt resume_text j1 = prompt resume_text j2 ->
     job_description_slot j1 = job_description_slot j2)
  /\ (forall a b x c,
     prompt (a ++ job_description_heading ++ b) (Some (x :: c))
     = prompt a (Some (b ++ job_description_heading ++ x :: c))).
Proof.
  split; [|split].
  - intros j r1 r2. rewrite !prompt_parts. intros H.
    apply app_inv_head in H. now apply app_inv_tail in H.
  - intros r j1 j2. rewrite !prompt_parts. intros H.
    apply app_inv_head, app_inv_head, app_inv_head in H.
    now apply app_inv_tail in H.
  - intros a b x c. rewrite !prompt_parts.
    assert (Hn : job_description_slot
                   (Some (b ++ job_description_heading ++ x :: c))
                 = b ++ job_description_heading ++ x :: c)
      by now destruct b.
    rewrite Hn. change (job_description_slot (Some (x :: c))) with (x :: c).
    now rewrite <- !app_assoc.
Qed.

Lemma prompt_keeps_inputs_but_not_their_border_witness :
  py "Jane Doe" = py "Jane Doe"
  /\ prompt (py "Jane Doe" ++ job_description_heading ++ py "Any candidate fits.")
            (Some (py "Senior engineer"))
     = prompt (py "Jane Doe")
              (Some (py "Any candidate fits." ++ job_description_heading
                     ++ py "Senior engineer")).
Proof.
  split.
  - apply (proj1 prompt_keeps_inputs_but_not_their_border None
             (py "Jane Doe") (py "Jane Doe") eq_refl).
  - apply (proj2 (proj2 prompt_keeps_inputs_but_not_their_border)
             (py "Jane Doe") (py "Any candidate fits.")).
Defined.

(** ** Replies that are prose *)

Lemma not_a_constant (lit : string) (v0 : pyobj) (s : pystr) :
  starts_with (py lit) s = None -> constant lit v0 s = None.
Proof. unfold constant. now intros ->. Qed.

(** A text that cannot be the start of a JSON value does not decode. *)
Lemma prose_is_not_json (s : pystr) :
  starts_json_value (skip_ws s) = false -> json_loads s = Err JSONDecodeError.
Proof.
  intros H.
  assert (D : decode s = Err JSONDecodeError).
  { unfold decode, enough. rewrite Nat.add_comm. cbn [Nat.add scan_once].
    destruct (skip_ws s) as [|c s']; [reflexivity|].
    cbn [starts_json_value existsb] in H.
    repeat (apply orb_false_iff in H; destruct H as [H ?]).
    rewrite H.
    match goal with E : is_char "{" c = false |- _ => rewrite E end.
    match goal with E : is_char "[" c = false |- _ => rewrite E end.
    unfold scan_atom.
    repeat match goal with
    | E : (match starts_with (py ?l) _ with Some _ => true | None => false end
           || _) = false |- _ =>
        apply orb_false_iff in E; destruct E as [? E]
    end.
    repeat match goal with
    | E : match starts_with (py ?l) ?x with Some _ => true | None => false end
          = false |- _ =>
        let E' := fresh "N" in
        assert (E' : starts_with (py l) x = None)
          by (destruct (starts_with (py l) x); [discriminate|reflexivity]);
        clear E
    end.
    rewrite !not_a_constant by assumption.
    assert (Hn : match_number (c :: s') = None).
    { unfold match_number, match_integer.
      match goal with E : is_char "-" c = false |- _ => rewrite E end.
      match goal with E : is_digit c = false |- _ => rewrite E end.
      assert (Hz : is_char "0" c = false).
      { unfold is_char, char_eqb. destruct (N.eqb_spec c (ch "0")) as [->|];
          [discriminate|reflexivity]. }
      now rewrite Hz. }
    rewrite Hn.
    assert (Hi : starts_with (py "-Infinity") (c :: s') = None).
    { cbn [py list_ascii_of_string map starts_with].
      match goal with E : is_char "-" c = false |- _ =>
        unfold is_char, char_eqb in E; rewrite N.eqb_sym in E end.
      unfold char_eqb. cbn [N_of_ascii] in *. unfold ch in *.
      cbn [N_of_ascii] in *.
      match goal with E : (_ =? c)%N = false |- _ => now rewrite E end. }
    now rewrite (not_a_constant _ _ _ Hi). }
  unfold json_loads. destruct s as [|c s']; [exact D|].
  destruct (c =? 65279)%N; [reflexivity|exact D].
Qed.

(** X13. A reply that opens with prose, or is empty or blank, and lacks an
    opening brace or lacks a closing brace makes [analyze_resume] raise its
    own [ValueError]: a refusal in plain words never comes back as a
    result. *)
Theorem braceless_prose_raises
  (generate_content : pystr -> result pystr) (resume_text : pystr)
  (job_description : option pystr) (reply : pystr) :
  generate_content (prompt resume_text job_description) = Ok reply ->
  starts_json_value (skip_ws reply) = false ->
  existsb (is_char "{") reply = false \/ existsb (is_char "}") reply = false ->
  analyze_resume generate_content resume_text job_description = Err not_valid_json.
Proof.
  intros Hg Hp Hb.
  rewrite (analyze_resume_reply _ _ _ _ Hg), parse_reply_steps.
  rewrite (prose_is_not_json _ Hp). now rewrite (no_brace_no_match _ Hb).
Qed.

Lemma braceless_prose_raises_witness :
  analyze_resume (replies (py "I cannot process this.")) sample_resume None
    = Err not_valid_json
  /\ analyze_resume (replies []) sample_resume None = Err not_valid_json.
Proof.
  split.
  - apply (braceless_prose_raises (replies (py "I cannot process this."))
             sample_resume None (py "I cannot process this.") eq_refl eq_refl).
    now left.
  - apply (braceless_prose_raises (replies []) sample_resume None [] eq_refl
             eq_refl).
    now left.
Defined.

(** ** The handler of the "Analyze Resume" button *)

Ltac ui_step :=
  match goal with
  | |- context [dict_get ?d (py ?k)] =>
      let E := fresh "E" in
      destruct (dict_get d (py k)) as [?|] eqn:E
  | |- context [match ?p with PyDict _ => _ | _ => _ end] =>
      is_var p; destruct p
  | |- context [if equals_str ?d ?s then _ else _] =>
      destruct (equals_str d s)
  end; cbv beta iota; cbn [andb].

Ltac ui_done :=
  eexists; cbn [fst snd];
  split; [rewrite <- ?app_assoc; cbn [app]; reflexivity|];
  split; [reflexivity|];
  split; [split; intros; try reflexivity; discriminate|];
  split; intros; try reflexivity; discriminate.

(** Rendering only appends, adds no error box, and ends normally exactly
    on a renderable value, after nineteen items, the seventeenth being the
    decision. *)
Lemma render_run (v : pyobj) (items : list shown) :
  exists written,
    snd (render v items) = items ++ written
    /\ error_free written = true
    /\ (fst (render v items) = Done tt <-> renderable v = true)
    /\ (renderable v = true -> List.length written = 19)
    /\ (renderable v = true -> nth_error written 16 = decision_badge v).
Proof.
  destruct v as [| | | | |l|d].
  1-6: (cbv [render ui_bind show subscript renderable]; ui_done).
  cbv [render ui_bind show subscript renderable has decision_badge].
  repeat ui_step.
  all: ui_done.
Qed.

(** What a click shows once the analysis has returned or raised. *)
Lemma on_analyze_run (generate_content : pystr -> result pystr)
  (resume_text job_description : pystr) :
  on_analyze generate_content resume_text job_description []
  = match analyze_resume generate_content resume_text (Some job_description) with
    | Ok v =>
        match render v [] with
        | (Done _, items) => (Done tt, items)
        | (Thrown e, items) => (Done tt, items ++ [Error_box e])
        end
    | Err e => (Done tt, [Error_box (Raised_by_analyze e)])
    end.
Proof.
  unfold on_analyze, ui_try, ui_bind, call_analyze, show.
  destruct (analyze_resume generate_content resume_text (Some job_description))
    as [v|e]; [|reflexivity].
  destruct (render v []) as [[[]|e] items]; reflexivity.
Qed.

Lemma error_free_app (a b : list shown) :
  error_free (a ++ b) = error_free a && error_free b.
Proof. apply forallb_app. Qed.


(** X15. The evaluation is shown in full, nineteen items and no error box,
    if and only if the returned value is a [dict] that has the nine keys
    the page reads and, under [requirement_coverage], a [dict] with [met]
    and [missing].  Nothing else about the values matters: no type, range
    or enumeration is checked before they are displayed. *)
Theorem page_complete_iff (generate_content : pystr -> result pystr)
  (resume_text job_description : pystr) (v : pyobj) :
  analyze_resume generate_content resume_text (Some job_description) = Ok v ->
  (error_free (snd (on_analyze generate_content resume_text job_description []))
     = true <-> renderable v = true)
  /\ (renderable v = true ->
      List.length (snd (on_analyze generate_content resume_text job_description []))
      = 19).
Proof.
  intros Ha. rewrite on_analyze_run, Ha.
  destruct (render_run v []) as (written & Hs & He & Hd & Hl & _).
  destruct (render v []) as [[[]|e] items]; cbn [fst snd app] in *; subst items.
  - split; [|exact Hl]. split; [intros _; now apply Hd|intros _; exact He].
  - assert (Hr : renderable v = false).
    { destruct (renderable v); [|reflexivity].
      destruct Hd as [_ Hd]. discriminate (Hd eq_refl). }
    rewrite Hr. split; [|discriminate]. split; [|discriminate].
    rewrite error_free_app. cbn. rewrite andb_false_r. discriminate.
Qed.

Lemma page_complete_iff_witness :
  (error_free (snd (on_analyze (replies malformed_reply) sample_resume sample_job []))
     = true <-> renderable malformed_record = true)
  /\ List.length (snd (on_analyze (replies good_reply) sample_resume sample_job []))
     = 19.
Proof.
  split.
  - apply (proj1 (page_complete_iff (replies malformed_reply) sample_resume
                    sample_job malformed_record ltac:(vm_compute; reflexivity))).
  - apply (proj2 (page_complete_iff (replies good_reply) sample_resume
                    sample_job good_record ltac:(vm_compute; reflexivity))).
    vm_compute. reflexivity.
Defined.

Ltac key_there :=
  match goal with
  | H : ?f (dict_get ?d (py ?k)) = true |- _ =>
      destruct (dict_get d (py k)) as [?|]; [clear H|discriminate H]
  | H : ?f ?l (dict_get ?d (py ?k)) = true |- _ =>
      destruct (dict_get d (py k)) as [?|]; [clear H|discriminate H]
  | H : match dict_get ?d (py ?k) with Some _ => _ | None => _ end = true |- _ =>
      destruct (dict_get d (py k)) as [?|]; [clear H|discriminate H]
  end.

Lemma shaped_renderable (v : pyobj) :
  MatchResult_shaped v = true -> renderable v = true.
Proof.
  destruct v as [| | | | | |d]; try discriminate.
  unfold MatchResult_shaped, renderable, has. intros H.
  repeat (apply andb_true_iff in H; destruct H as [H ?]).
  match goal with
  | H : is_coverage (dict_get d (py "requirement_coverage")) = true |- _ =>
      unfold is_coverage in H;
      destruct (dict_get d (py "requirement_coverage")) as [[| | | | | |c]|];
      try discriminate H;
      apply andb_true_iff in H; destruct H
  end.
  repeat key_there. reflexivity.
Qed.

(** X16. End to end on a well-formed answer: when the model's reply yields
    a record that satisfies the MatchResult invariants, the click shows the
    complete evaluation, nineteen items without an error box. *)
Theorem shaped_record_is_shown_in_full
  (generate_content : pystr -> result pystr)
  (resume_text job_description : pystr) (v : pyobj) :
  analyze_resume generate_content resume_text (Some job_description) = Ok v ->
  MatchResult_shaped v = true ->
  exists items,
    on_analyze generate_content resume_text job_description [] = (Done tt, items)
    /\ error_free items = true
    /\ List.length items = 19.
Proof.
  intros Ha Hm. apply shaped_renderable in Hm.
  rewrite on_analyze_run, Ha.
  destruct (render_run v []) as (written & Hs & He & Hd & Hl & _).
  destruct (render v []) as [[[]|e] items]; cbn [fst snd app] in *; subst items.
  - exists written. repeat split; [exact He|now apply Hl].
  - destruct Hd as [_ Hd]. discriminate (Hd Hm).
Qed.

Lemma shaped_record_is_shown_in_full_witness :
  exists items,
    on_analyze (replies good_reply) sample_resume sample_job [] = (Done tt, items)
    /\ error_free items = true
    /\ List.length items = 19.
Proof.
  apply (shaped_record_is_shown_in_full (replies good_reply) sample_resume
           sample_job good_record); vm_compute; reflexivity.
Defined.

(** X17. What the user sees when the analysis is of no use: if
    [analyze_resume] raises, the page shows the error box and nothing
    else; if it returns a value that is not a [dict] (a number, a string,
    a list), the page shows the heading of the evaluation and then an
    error box for the [TypeError] of the first subscript. *)
Theorem unusable_result_shows_error (generate_content : pystr -> result pystr)
  (resume_text job_description : pystr) :
  (forall e,
     analyze_resume generate_content resume_text (Some job_description) = Err e ->
     snd (on_analyze generate_content resume_text job_description [])
     = [Error_box (Raised_by_analyze e)])
  /\ (forall v,
     analyze_resume generate_content resume_text (Some job_description) = Ok v ->
     is_dict v = false ->
     snd (on_analyze generate_content resume_text job_description [])
     = [Subheader (py "AI-Generated Resume Evaluation"); Error_box TypeError]).
Proof.
  split.
  - intros e Ha. now rewrite on_analyze_run, Ha.
  - intros v Ha Hd. rewrite on_analyze_run, Ha.
    destruct v; try discriminate Hd; reflexivity.
Qed.

Lemma unusable_result_shows_error_witness :
  snd (on_analyze (replies (py "I cannot process this.")) sample_resume sample_job [])
    = [Error_box (Raised_by_analyze not_valid_json)]
  /\ snd (on_analyze (replies (py "42")) sample_resume sample_job [])
     = [Subheader (py "AI-Generated Resume Evaluation"); Error_box TypeError].
Proof.
  split.
  - apply (proj1 (unusable_result_shows_error
                    (replies (py "I cannot process this.")) sample_resume
                    sample_job) not_valid_json).
    vm_compute. reflexivity.
  - apply (proj2 (unusable_result_shows_error (replies (py "42")) sample_resume
                    sample_job) (PyInt 42)); vm_compute; reflexivity.
Defined.

Lemma pystr_eqb_eq (a b : pystr) : pystr_eqb a b = true <-> a = b.
Proof.
  revert b. induction a as [|x a IH]; intros [|y b]; cbn [pystr_eqb];
    try (split; [discriminate|discriminate]); [now split|].
  unfold char_eqb. rewrite andb_true_iff, N.eqb_eq, IH.
  split; [intros [-> ->]; reflexivity|intros H; now injection H].
Qed.

(** X18. In a complete rendering the decision is the seventeenth item, and
    its mark is the green circle exactly when the value under
    [final_decision] is the string "Shortlist"; every other value, "Do Not
    Shortlist" as well as a misspelt or non-string one, gets the red
    circle. *)
Theorem badge_green_iff_shortlist (generate_content : pystr -> result pystr)
  (resume_text job_description : pystr) (d : list (pystr * pyobj)) (x : pyobj) :
  analyze_resume generate_content resume_text (Some job_description)
    = Ok (PyDict d) ->
  renderable (PyDict d) = true ->
  dict_get d (py "final_decision") = Some x ->
  nth_error (snd (on_analyze generate_content resume_text job_description [])) 16
    = Some (Write_fmt
              (py "**" ++ (if equals_str x "Shortlist"
                           then green_circle else red_circle) :: py " ")
              x (py "**"))
  /\ (equals_str x "Shortlist" = true <-> x = PyStr (py "Shortlist")).
Proof.
  intros Ha Hr Hx. split.
  - rewrite on_analyze_run, Ha.
    destruct (render_run (PyDict d) []) as (written & Hs & _ & Hd & _ & Hb).
    destruct (render (PyDict d) []) as [[[]|e] items];
      cbn [fst snd app] in *; subst items.
    + rewrite (Hb Hr). unfold decision_badge. now rewrite Hx.
    + destruct Hd as [_ Hd]. discriminate (Hd Hr).
  - destruct x; cbn [equals_str]; try (split; discriminate).
    rewrite pystr_eqb_eq. split; [now intros ->|intros H; now injection H].
Qed.

Lemma badge_green_iff_shortlist_witness :
  nth_error (snd (on_analyze (replies good_reply) sample_resume sample_job [])) 16
  = Some (Write_fmt (py "**" ++ green_circle :: py " ")
            (PyStr (py "Shortlist")) (py "**")).
Proof.
  apply (proj1 (badge_green_iff_shortlist (replies good_reply) sample_resume
                  sample_job
                  (match good_record with PyDict d => d | _ => [] end)
                  (PyStr (py "Shortlist"))
                  ltac:(vm_compute; reflexivity) ltac:(vm_compute; reflexivity)
                  ltac:(vm_compute; reflexivity))).
Defined.

(** ** The script around the handler *)

(** X19. With a file uploaded, the script extracts its text on every run,
    clicked or not, and never aborts there; a click then analyses whatever
    text came back.  In particular an empty extraction is not held back:
    the model is still asked, with an empty resume in the prompt. *)
Theorem script_analyses_whatever_was_extracted (w : world)
  (generate_content : pystr -> result pystr) (clicked : bool)
  (job_description : pystr) :
  (exists t,
     fst (extract_text_from_pdf w uploaded_resume) = Ret (Some t)
     /\ page_script w generate_content true clicked job_description
        = (snd (extract_text_from_pdf w uploaded_resume),
           Ret (if clicked
                then snd (on_analyze generate_content t job_description [])
                else [])))
  /\ (blank (text_layer_partial w uploaded_resume) = true ->
      blank (ocr_partial w uploaded_resume) = true ->
      snd (page_script w generate_content true true job_description)
      = Ret (snd (on_analyze generate_content [] job_description []))).
Proof.
  unfold page_script. rewrite extract_text_from_pdf_run. split.
  - destruct (negb (yields_nothing (text_layer w uploaded_resume)));
      eexists; split; reflexivity.
  - intros H1 H2.
    rewrite (blank_partial_yields_nothing _ _ H1). cbn [negb snd].
    now rewrite strip_app_blank.
Qed.

Lemma script_analyses_whatever_was_extracted_witness :
  snd (page_script unreadable_file (replies good_reply) true true sample_job)
  = Ret (snd (on_analyze (replies good_reply) [] sample_job [])).
Proof.
  apply (proj2 (script_analyses_whatever_was_extracted unreadable_file
                  (replies good_reply) true sample_job)); reflexivity.
Defined.

(** ** The decoder and the text behind a value *)


Lemma skip_ws_app (s t : pystr) (c : char) (r : pystr) :
  skip_ws s = c :: r -> skip_ws (s ++ t) = c :: r ++ t.
Proof.
  induction s as [|x s IH]; cbn [skip_ws app]; [discriminate|].
  destruct (is_json_ws x); [exact IH|]. intros H. injection H as <- <-.
  reflexivity.
Qed.

Lemma skip_ws_blank_app (s t : pystr) :
  skip_ws s = [] -> skip_ws (s ++ t) = skip_ws t.
Proof.
  induction s as [|x s IH]; cbn [skip_ws app]; [reflexivity|].
  destruct (is_json_ws x); [exact IH|discriminate].
Qed.

Lemma starts_with_app (lit s t r : pystr) :
  starts_with lit s = Some r -> starts_with lit (s ++ t) = Some (r ++ t).
Proof.
  revert s. induction lit as [|a lit IH]; intros s; cbn [starts_with].
  - intros H. now injection H as <-.
  - destruct s as [|c s]; [discriminate|]. cbn [app].
    destruct (char_eqb a c); [apply IH|discriminate].
Qed.

Lemma digits_app (s t d r : pystr) :
  digits s = (d, r) -> r <> [] -> digits (s ++ t) = (d, r ++ t).
Proof.
  revert d r. induction s as [|c s IH]; intros d r; cbn [digits app].
  - intros H. injection H as <- <-. now intros [].
  - destruct (is_digit c).
    + destruct (digits s) as [d' r'] eqn:E. intros H Hr. injection H as <- <-.
      now rewrite (IH _ _ eq_refl Hr).
    + intros H _. now injection H as <- <-.
Qed.

Lemma match_integer_app (s t i r : pystr) :
  match_integer s = Some (i, r) -> r <> [] ->
  match_integer (s ++ t) = Some (i, r ++ t).
Proof.
  unfold match_integer.
  assert (H0 : forall sign s1,
    match s1 with
    | c :: s2 =>
        if is_char "0" c then Some (sign ++ [c], s2)
        else if is_digit c
             then let (d, r0) := digits s2 in Some (sign ++ c :: d, r0)
             else None
    | [] => None
    end = Some (i, r) -> r <> [] ->
    match s1 ++ t with
    | c :: s2 =>
        if is_char "0" c then Some (sign ++ [c], s2)
        else if is_digit c
             then let (d, r0) := digits s2 in Some (sign ++ c :: d, r0)
             else None
    | [] => None
    end = Some (i, r ++ t)).
  { intros sign [|c s2]; [discriminate|]. cbn [app].
    destruct (is_char "0" c).
    - intros H _. now injection H as <- <-.
    - destruct (is_digit c); [|discriminate].
      destruct (digits s2) as [d r0] eqn:E. intros H Hr. injection H as <- <-.
      now rewrite (digits_app _ t _ _ E Hr). }
  destruct s as [|c s']; [discriminate|]. cbn [app].
  destruct (is_char "-" c); [apply (H0 [c] s')|apply (H0 [] (c :: s'))].
Qed.

Lemma match_frac_app (s t f r : pystr) :
  match_frac s = Some (f, r) -> r <> [] ->
  match_frac (s ++ t) = Some (f, r ++ t).
Proof.
  unfold match_frac. destruct s as [|c s]; [discriminate|]. cbn [app].
  destruct (is_char "." c); [|discriminate].
  destruct (digits s) as [[|d0 d] r0] eqn:E; [discriminate|].
  intros H Hr. injection H as <- <-. now rewrite (digits_app _ t _ _ E Hr).
Qed.

Lemma match_exp_app (s t e r : pystr) :
  match_exp s = Some (e, r) -> r <> [] ->
  match_exp (s ++ t) = Some (e, r ++ t).
Proof.
  unfold match_exp. destruct s as [|c s]; [discriminate|]. cbn [app].
  destruct (is_char "e" c || is_char "E" c); [|discriminate].
  assert (H0 : forall sign s1,
    match digits s1 with
    | (d0 :: d, r0) => Some (c :: sign ++ d0 :: d, r0)
    | ([], _) => None
    end = Some (e, r) -> r <> [] ->
    match digits (s1 ++ t) with
    | (d0 :: d, r0) => Some (c :: sign ++ d0 :: d, r0)
    | ([], _) => None
    end = Some (e, r ++ t)).
  { intros sign s1. destruct (digits s1) as [[|d0 d] r0] eqn:E; [discriminate|].
    intros H Hr. injection H as <- <-. now rewrite (digits_app _ t _ _ E Hr). }
  destruct s as [|c' s'']; [cbn; discriminate|]. cbn [app].
  destruct (is_char "-" c' || is_char "+" c');
    [apply (H0 [c'] s'')|apply (H0 [] (c' :: s''))].
Qed.

Lemma neutral_nonempty (r : pystr) : neutral r = true -> r <> [].
Proof. now destruct r. Qed.

Lemma match_frac_neutral (r t : pystr) :
  neutral r = true -> match_frac (r ++ t) = None.
Proof.
  destruct r as [|c r]; [discriminate|]. cbn [neutral app match_frac].
  intros H. apply negb_true_iff in H.
  repeat (apply orb_false_iff in H; destruct H as [H ?]).
  now replace (is_char "." c) with false.
Qed.

Lemma match_exp_neutral (r t : pystr) :
  neutral r = true -> match_exp (r ++ t) = None.
Proof.
  destruct r as [|c r]; [discriminate|]. cbn [neutral app match_exp].
  intros H. apply negb_true_iff in H.
  repeat (apply orb_false_iff in H; destruct H as [H ?]).
  replace (is_char "e" c) with false by congruence.
  now replace (is_char "E" c) with false.
Qed.

Lemma match_exp_head (s e r t : pystr) :
  match_exp s = Some (e, r) -> match_frac (s ++ t) = None /\ s <> [].
Proof.
  unfold match_exp, match_frac. destruct s as [|c s]; [discriminate|]. cbn [app].
  destruct (is_char "e" c || is_char "E" c) eqn:E; [|discriminate].
  intros _. split; [|discriminate].
  assert (H : is_char "." c = false).
  { unfold is_char, char_eqb in *.
    destruct (N.eqb_spec c (ch ".")) as [->|]; [discriminate E|reflexivity]. }
  now rewrite H.
Qed.

Lemma match_frac_nonempty (s f r : pystr) :
  match_frac s = Some (f, r) -> s <> [].
Proof. now destruct s. Qed.

Lemma match_number_app (s t : pystr) (v : pyobj) (r : pystr) :
  match_number s = Some (v, r) -> neutral r = true ->
  match_number (s ++ t) = Some (v, r ++ t).
Proof.
  unfold match_number.
  destruct (match_integer s) as [[i r0]|] eqn:Ei; [|discriminate].
  destruct (match_frac r0) as [[f r1]|] eqn:Ef.
  - rewrite (match_integer_app _ t _ _ Ei (match_frac_nonempty _ _ _ Ef)).
    destruct (match_exp r1) as [[e r2]|] eqn:Ee.
    + destruct (match_exp_head _ _ _ t Ee) as [_ Hne].
      rewrite (match_frac_app _ t _ _ Ef Hne).
      intros H Hn.
      assert (Hr : r2 = r) by (destruct (nonempty f || nonempty e);
                               now injection H).
      subst r2. rewrite (match_exp_app _ t _ _ Ee (neutral_nonempty _ Hn)).
      destruct (nonempty f || nonempty e); now injection H as <-.
    + intros H Hn.
      assert (Hr : r1 = r) by (destruct (nonempty f || nonempty []);
                               now injection H).
      subst r1. rewrite (match_frac_app _ t _ _ Ef (neutral_nonempty _ Hn)).
      rewrite (match_exp_neutral _ t Hn).
      destruct (nonempty f || nonempty []); now injection H as <-.
  - destruct (match_exp r0) as [[e r2]|] eqn:Ee.
    + destruct (match_exp_head _ _ _ t Ee) as [Hf Hne].
      rewrite (match_integer_app _ t _ _ Ei Hne), Hf.
      intros H Hn.
      assert (Hr : r2 = r) by (destruct (nonempty [] || nonempty e);
                               now injection H).
      subst r2. rewrite (match_exp_app _ t _ _ Ee (neutral_nonempty _ Hn)).
      destruct (nonempty [] || nonempty e); now injection H as <-.
    + cbn [nonempty orb]. intros H Hn. injection H as <- <-.
      rewrite (match_integer_app _ t _ _ Ei (neutral_nonempty _ Hn)).
      now rewrite (match_frac_neutral _ t Hn), (match_exp_neutral _ t Hn).
Qed.

Lemma constant_app (lit : string) (v0 : pyobj) (s t : pystr) (v : pyobj) (r : pystr) :
  constant lit v0 s = Some (v, r) ->
  constant lit v0 (s ++ t) = Some (v, r ++ t).
Proof.
  unfold constant. destruct (starts_with (py lit) s) as [r0|] eqn:E; [|discriminate].
  intros H. injection H as <- <-. now rewrite (starts_with_app _ _ t _ E).
Qed.

Lemma constant_head (lit : string) (v0 : pyobj) (c : char) (s : pystr)
  (v : pyobj) (r : pystr) (a : char) (rest : pystr) :
  py lit = a :: rest ->
  constant lit v0 (c :: s) = Some (v, r) -> c = a.
Proof.
  unfold constant. intros ->. cbn [starts_with]. unfold char_eqb.
  destruct (N.eqb_spec a c) as [->|]; [reflexivity|discriminate].
Qed.

Lemma match_number_head (c : char) (s : pystr) (v : pyobj) (r : pystr) :
  match_number (c :: s) = Some (v, r) -> is_char "-" c || is_digit c = true.
Proof.
  unfold match_number, match_integer.
  destruct (is_char "-" c); [reflexivity|].
  destruct (is_char "0" c) eqn:E0.
  - unfold is_char, char_eqb in E0. apply N.eqb_eq in E0. now subst c.
  - destruct (is_digit c); [reflexivity|discriminate].
Qed.

Lemma scan_atom_app (s t : pystr) (v : pyobj) (r : pystr) :
  scan_atom s = Parsed v r ->
  delimited v = true \/ neutral r = true ->
  scan_atom (s ++ t) = Parsed v (r ++ t).
Proof.
  destruct s as [|c s']; [discriminate|].
  unfold scan_atom.
  destruct (constant "null" PyNone (c :: s')) as [[v1 r1]|] eqn:E1.
  { intros H _. injection H as <- <-. now rewrite (constant_app _ _ _ t _ _ E1). }
  destruct (constant "true" (PyBool true) (c :: s')) as [[v2 r2]|] eqn:E2.
  { intros H _. injection H as <- <-.
    pose proof (constant_head "true" _ _ _ _ _ _ _ eq_refl E2) as ->.
    now rewrite (constant_app _ _ _ t _ _ E2). }
  destruct (constant "false" (PyBool false) (c :: s')) as [[v3 r3]|] eqn:E3.
  { intros H _. injection H as <- <-.
    pose proof (constant_head "false" _ _ _ _ _ _ _ eq_refl E3) as ->.
    now rewrite (constant_app _ _ _ t _ _ E3). }
  destruct (match_number (c :: s')) as [[v4 r4]|] eqn:E4.
  { intros H Hd. injection H as <- <-.
    assert (Hn : neutral r4 = true).
    { destruct Hd as [Hd|Hd]; [|exact Hd].
      unfold match_number in E4.
      destruct (match_integer (c :: s')) as [[i r0]|]; [|discriminate].
      destruct (match_frac r0) as [[f r1]|]; destruct (match_exp _) as [[e r2]|];
        destruct (_ || _); injection E4 as <- <-; discriminate Hd. }
    rewrite (match_number_app _ t _ _ E4 Hn).
    pose proof (match_number_head _ _ _ _ E4) as Hh.
    assert (K : forall k, (is_char "-" k || is_digit k) = false ->
                          char_eqb k c = false).
    { intros k Hk. unfold char_eqb. destruct (N.eqb_spec k c) as [->|];
        [congruence|reflexivity]. }
    unfold constant. cbn [py list_ascii_of_string map starts_with app].
    now rewrite !K by reflexivity. }
  destruct (constant "NaN" (PyFloat NaN) (c :: s')) as [[v5 r5]|] eqn:E5.
  { intros H _. injection H as <- <-.
    pose proof (constant_head "NaN" _ _ _ _ _ _ _ eq_refl E5) as ->.
    now rewrite (constant_app _ _ _ t _ _ E5). }
  destruct (constant "Infinity" (PyFloat PosInf) (c :: s')) as [[v6 r6]|] eqn:E6.
  { intros H _. injection H as <- <-.
    pose proof (constant_head "Infinity" _ _ _ _ _ _ _ eq_refl E6) as ->.
    now rewrite (constant_app _ _ _ t _ _ E6). }
  destruct (constant "-Infinity" (PyFloat NegInf) (c :: s')) as [[v7 r7]|] eqn:E7;
    [|discriminate].
  intros H _. injection H as <- <-.
  pose proof (constant_head "-Infinity" _ _ _ _ _ _ _ eq_refl E7) as ->.
  rewrite (constant_app _ _ _ t _ _ E7).
  destruct s' as [|c2 s2]; [discriminate E7|].
  assert (c2 = ch "I") as ->.
  { unfold constant in E7. cbn [py list_ascii_of_string map starts_with] in E7.
    change (char_eqb (N_of_ascii "-") (N_of_ascii "-")) with true in E7.
    cbv iota in E7. unfold char_eqb in E7.
    destruct (N.eqb_spec (N_of_ascii "I") c2) as [<-|]; [reflexivity|discriminate]. }
  reflexivity.
Qed.

Lemma scanstring_app (s t str r : pystr) :
  scanstring s = Some (str, r) -> scanstring (s ++ t) = Some (str, r ++ t).
Proof.
  remember (len s) as k eqn:Hk. revert s str r Hk.
  induction k as [k IH] using lt_wf_ind. intros s str r -> .
  assert (REC : forall c u str' r', len u < len s ->
            push c (scanstring u) = Some (str', r') ->
            push c (scanstring (u ++ t)) = Some (str', r' ++ t)).
  { intros c u str' r' Hlt.
    destruct (scanstring u) as [[a b]|] eqn:E; [|discriminate]. cbn [push].
    intros Hp. injection Hp as <- <-.
    now rewrite (IH _ Hlt _ _ _ eq_refl E). }
  destruct s as [|c s1]; [discriminate|].
  rewrite <- app_comm_cons.
  cbn [scanstring].
  destruct (char_eqb c dquote).
  { intros H. now injection H as <- <-. }
  destruct (is_char "\" c).
  - destruct s1 as [|esc s2]; [discriminate|]. rewrite <- app_comm_cons.
    destruct (is_char "u" esc).
    + destruct s2 as [|a [|b [|c' [|d s3]]]]; try discriminate.
      rewrite <- !app_comm_cons.
      destruct (decode_uXXXX a b c' d) as [uni|]; [|discriminate].
      destruct (high_surrogate uni).
      * destruct s3 as [|bs [|u s4]].
        -- discriminate.
        -- destruct (char_eqb bs dquote) eqn:Eq.
           ++ unfold char_eqb in Eq. apply N.eqb_eq in Eq. subst bs.
              intros H. cbn in H. injection H as <- <-.
              destruct t as [|u' t']; reflexivity.
           ++ cbn [scanstring]. rewrite Eq.
              destruct (is_char "\" bs); [discriminate|].
              destruct (bs <? 32)%N; discriminate.
        -- rewrite <- !app_comm_cons.
           destruct (is_char "\" bs && is_char "u" u).
           ++ destruct s4 as [|e [|f [|g [|h s5]]]]; try discriminate.
              rewrite <- !app_comm_cons.
              destruct (decode_uXXXX e f g h) as [uni2|]; [|discriminate].
              destruct (low_surrogate uni2).
              ** apply REC. cbn [List.length]. lia.
              ** apply (REC uni (bs :: u :: e :: f :: g :: h :: s5)).
                 cbn [List.length]. lia.
           ++ apply (REC uni (bs :: u :: s4)). cbn [List.length]. lia.
      * apply REC. cbn [List.length]. lia.
    + destruct (BACKSLASH esc); [|discriminate]. apply REC. cbn [List.length]. lia.
  - destruct (c <? 32)%N; [discriminate|]. apply REC. cbn [List.length]. lia.
Qed.

(** A larger counter changes no result. *)
Lemma scan_once_mono (n : nat) :
  (forall m s v r, n <= m ->
     scan_once n s = Parsed v r -> scan_once m s = Parsed v r)
  /\ (forall m pairs s v r, n <= m ->
     object_members n pairs s = Parsed v r ->
     object_members m pairs s = Parsed v r)
  /\ (forall m values s v r, n <= m ->
     array_items n values s = Parsed v r ->
     array_items m values s = Parsed v r).
Proof.
  induction n as [|n [IHs [IHo IHa]]].
  { repeat split; intros; discriminate. }
  split; [|split].
  - intros [|m] s v r Hle; [lia|]. apply le_S_n in Hle.
    cbn [scan_once]. destruct s as [|c s']; [discriminate|].
    destruct (char_eqb c dquote); [exact (fun H => H)|].
    destruct (is_char "{" c).
    { destruct (skip_ws s') as [|c1 s1]; [discriminate|].
      destruct (is_char "}" c1); [exact (fun H => H)|].
      destruct (char_eqb c1 dquote); [|discriminate]. now apply IHo. }
    destruct (is_char "[" c).
    { destruct (skip_ws s') as [|c1 s1]; [discriminate|].
      destruct (is_char "]" c1); [exact (fun H => H)|]. now apply IHa. }
    exact (fun H => H).
  - intros [|m] pairs s v r Hle; [lia|]. apply le_S_n in Hle.
    cbn [object_members].
    destruct (scanstring s) as [[key r0]|]; [|discriminate].
    destruct (skip_ws r0) as [|c r1]; [discriminate|].
    destruct (is_char ":" c); [|discriminate].
    destruct (scan_once n (skip_ws r1)) as [v1 r2| |] eqn:Ev; try discriminate.
    rewrite (IHs m _ _ _ Hle Ev).
    destruct (skip_ws r2) as [|c2 r3]; [discriminate|].
    destruct (is_char "}" c2); [exact (fun H => H)|].
    destruct (is_char "," c2); [|discriminate].
    destruct (skip_ws r3) as [|c3 r4]; [discriminate|].
    destruct (char_eqb c3 dquote); [|discriminate]. now apply IHo.
  - intros [|m] values s v r Hle; [lia|]. apply le_S_n in Hle.
    cbn [array_items].
    destruct (scan_once n s) as [v1 r1| |] eqn:Ev; try discriminate.
    rewrite (IHs m _ _ _ Hle Ev).
    destruct (skip_ws r1) as [|c r2]; [discriminate|].
    destruct (is_char "]" c); [exact (fun H => H)|].
    destruct (is_char "," c); [|discriminate]. now apply IHa.
Qed.

Lemma neutral_after_value (r2 : pystr) (c2 : char) (r3 : pystr) :
  skip_ws r2 = c2 :: r3 ->
  is_char "}" c2 || is_char "," c2 || is_char "]" c2 = true ->
  neutral r2 = true.
Proof.
  destruct r2 as [|x r2]; [discriminate|]. cbn [skip_ws neutral].
  destruct (is_json_ws x) eqn:Ew.
  - intros _ _. unfold is_json_ws in Ew.
    repeat (apply orb_true_iff in Ew; destruct Ew as [Ew|Ew]);
      apply N.eqb_eq in Ew; subst x; reflexivity.
  - intros H Hc. injection H as -> _.
    unfold is_char, char_eqb in Hc.
    repeat (apply orb_true_iff in Hc; destruct Hc as [Hc|Hc]);
      apply N.eqb_eq in Hc; subst c2; reflexivity.
Qed.

(** Text added behind what a value leaves unread does not change the
    value, when the value is delimited or what it leaves continues no
    number. *)
Lemma scan_once_app (n : nat) :
  (forall s t v r,
     scan_once n s = Parsed v r ->
     delimited v = true \/ neutral r = true ->
     scan_once n (s ++ t) = Parsed v (r ++ t))
  /\ (forall pairs s t v r,
     object_members n pairs s = Parsed v r ->
     object_members n pairs (s ++ t) = Parsed v (r ++ t))
  /\ (forall values s t v r,
     array_items n values s = Parsed v r ->
     array_items n values (s ++ t) = Parsed v (r ++ t)).
Proof.
  induction n as [|n [IHs [IHo IHa]]].
  { repeat split; intros; discriminate. }
  split; [|split].
  - intros s t v r. destruct s as [|c s']; [discriminate|].
    rewrite <- app_comm_cons. cbn [scan_once].
    destruct (char_eqb c dquote).
    { destruct (scanstring s') as [[str r0]|] eqn:E; [|discriminate].
      intros H _. injection H as <- <-. now rewrite (scanstring_app _ t _ _ E). }
    destruct (is_char "{" c).
    { destruct (skip_ws s') as [|c1 s1] eqn:Ew; [discriminate|].
      rewrite (skip_ws_app _ t _ _ Ew).
      destruct (is_char "}" c1).
      { intros H _. now injection H as <- <-. }
      destruct (char_eqb c1 dquote); [|discriminate].
      intros H _. now apply IHo. }
    destruct (is_char "[" c).
    { destruct (skip_ws s') as [|c1 s1] eqn:Ew; [discriminate|].
      rewrite (skip_ws_app _ t _ _ Ew).
      destruct (is_char "]" c1).
      { intros H _. now injection H as <- <-. }
      intros H _. now apply (IHa [] (c1 :: s1)). }
    intros H Hd. exact (scan_atom_app (c :: s') t _ _ H Hd).
  - intros pairs s t v r. cbn [object_members].
    destruct (scanstring s) as [[key r0]|] eqn:Ek; [|discriminate].
    rewrite (scanstring_app _ t _ _ Ek).
    destruct (skip_ws r0) as [|c r1] eqn:Ew0; [discriminate|].
    rewrite (skip_ws_app _ t _ _ Ew0).
    destruct (is_char ":" c); [|discriminate].
    destruct (scan_once n (skip_ws r1)) as [v1 r2| |] eqn:Ev; try discriminate.
    destruct (skip_ws r1) as [|c1 r1'] eqn:Ew1.
    { destruct n; discriminate Ev. }
    rewrite (skip_ws_app _ t _ _ Ew1).
    destruct (skip_ws r2) as [|c2 r3] eqn:Ew2; [discriminate|].
    assert (Hn : is_char "}" c2 || is_char "," c2 || is_char "]" c2 = true ->
                 scan_once n (c1 :: r1' ++ t) = Parsed v1 (r2 ++ t)).
    { intros Hc. apply (IHs (c1 :: r1') t _ _ Ev). right.
      exact (neutral_after_value _ _ _ Ew2 Hc). }
    destruct (is_char "}" c2) eqn:E1.
    { rewrite (Hn eq_refl), (skip_ws_app _ t _ _ Ew2), E1.
      intros H. now injection H as <- <-. }
    destruct (is_char "," c2) eqn:E2; [|discriminate].
    rewrite (Hn eq_refl), (skip_ws_app _ t _ _ Ew2), E1, E2.
    destruct (skip_ws r3) as [|c3 r4] eqn:Ew3; [discriminate|].
    rewrite (skip_ws_app _ t _ _ Ew3).
    destruct (char_eqb c3 dquote); [|discriminate]. apply IHo.
  - intros values s t v r. cbn [array_items].
    destruct (scan_once n s) as [v1 r1| |] eqn:Ev; try discriminate.
    destruct (skip_ws r1) as [|c r2] eqn:Ew; [discriminate|].
    destruct (is_char "]" c) eqn:E1.
    { assert (Hneu : neutral r1 = true).
      { apply (neutral_after_value _ _ _ Ew). rewrite E1.
        now rewrite orb_true_r. }
      rewrite (IHs s t _ _ Ev (or_intror Hneu)).
      rewrite (skip_ws_app _ t _ _ Ew), E1.
      intros H. now injection H as <- <-. }
    destruct (is_char "," c) eqn:E2; [|discriminate].
    assert (Hneu : neutral r1 = true).
    { apply (neutral_after_value _ _ _ Ew). rewrite E2.
      now rewrite orb_true_r. }
    rewrite (IHs s t _ _ Ev (or_intror Hneu)).
    rewrite (skip_ws_app _ t _ _ Ew), E1, E2.
    destruct (skip_ws r2) as [|c3 r3] eqn:Ew3.
    { destruct n as [|[|n']]; cbn; discriminate. }
    rewrite (skip_ws_app _ t _ _ Ew3). apply (IHa _ (c3 :: r3)).
Qed.

Lemma skip_ws_all_ws (ws x : pystr) :
  forallb is_json_ws ws = true -> skip_ws (ws ++ x) = skip_ws x.
Proof.
  induction ws as [|c ws IH]; [reflexivity|]. cbn [forallb app skip_ws].
  intros H. apply andb_true_iff in H as [Hc Hw]. rewrite Hc. now apply IH.
Qed.

Lemma json_ws_no_brace (ws : pystr) :
  forallb is_json_ws ws = true -> existsb (is_char "{") ws = false.
Proof.
  induction ws as [|c ws IH]; [reflexivity|]. cbn [forallb existsb].
  intros H. apply andb_true_iff in H as [Hc Hw]. rewrite (IH Hw), orb_false_r.
  unfold is_char, char_eqb. destruct (N.eqb_spec c (ch "{")) as [->|];
    [discriminate Hc|reflexivity].
Qed.

Lemma json_ws_not_bom (c : char) : is_json_ws c = true -> (c =? 65279)%N = false.
Proof.
  intros H. destruct (N.eqb_spec c 65279) as [->|]; [discriminate H|reflexivity].
Qed.

(** [json.loads] on a valid object text with whitespace before it and any
    text behind it: the object if that text is blank, an error if not. *)
Lemma json_loads_padded_object (ws s t : pystr) (v : pyobj) :
  forallb is_json_ws ws = true ->
  json_loads (ch "{" :: s) = Ok v ->
  json_loads (ws ++ (ch "{" :: s) ++ t)
  = match skip_ws t with
    | [] => Ok v
    | _ :: _ => Err JSONDecodeError
    end.
Proof.
  intros Hws Hv.
  pose proof (json_loads_brace_dict _ _ Hv) as Hd.
  assert (Hdel : delimited v = true) by (destruct v; try discriminate Hd; reflexivity).
  assert (D : decode (ws ++ (ch "{" :: s) ++ t)
              = match skip_ws t with
                | [] => Ok v
                | _ :: _ => Err JSONDecodeError
                end).
  { unfold decode. rewrite (skip_ws_all_ws _ _ Hws).
    change (skip_ws ((ch "{" :: s) ++ t)) with ((ch "{" :: s) ++ t).
    unfold json_loads in Hv. change (ch "{" =? 65279)%N with false in Hv.
    cbv iota in Hv. unfold decode in Hv.
    change (skip_ws (ch "{" :: s)) with (ch "{" :: s) in Hv.
    destruct (scan_once (enough (ch "{" :: s)) (ch "{" :: s)) as [v' r| |] eqn:E;
      try discriminate Hv.
    destruct (skip_ws r) eqn:Er; [|discriminate Hv]. injection Hv as ->.
    assert (Hle : enough (ch "{" :: s) <= enough (ws ++ (ch "{" :: s) ++ t)).
    { unfold enough. rewrite !length_app. lia. }
    apply (proj1 (scan_once_mono _) _ _ _ _ Hle) in E.
    rewrite (proj1 (scan_once_app _) _ t _ _ E (or_introl Hdel)).
    now rewrite (skip_ws_blank_app _ t Er). }
  unfold json_loads.
  destruct ws as [|c ws']; cbn [app].
  - change (ch "{" =? 65279)%N with false. exact D.
  - cbn [forallb] in Hws. apply andb_true_iff in Hws as [Hc _].
    rewrite (json_ws_not_bom _ Hc). exact D.
Qed.

Lemma skip_ws_has_brace (s : pystr) :
  existsb (is_char "}") s = true -> skip_ws s <> [].
Proof.
  induction s as [|c s IH]; [discriminate|]. cbn [existsb skip_ws].
  destruct (is_json_ws c) eqn:Ew; [|discriminate].
  assert (H : is_char "}" c = false).
  { unfold is_char, char_eqb. destruct (N.eqb_spec c (ch "}")) as [->|];
      [discriminate Ew|reflexivity]. }
  rewrite H. exact IH.
Qed.

Lemma upto_last_some (a : ascii) (s : pystr) :
  existsb (is_char a) s = true -> exists m, upto_last a s = Some m.
Proof.
  induction s as [|c s IH]; [discriminate|]. cbn [existsb upto_last].
  destruct (upto_last a s) as [m|]; [intros _; now eexists|].
  destruct (is_char a c); [intros _; now eexists|].
  intros H. destruct (IH H) as [m Hm]. discriminate Hm.
Qed.

(** X20. A reply that is a valid JSON object, possibly after whitespace,
    followed by any text: [analyze_resume] returns the record of the object
    when the text behind it has no closing brace (a closing sentence, a
    markdown fence), and raises [JSONDecodeError] when it has one (a second
    object, a brace in the closing words), because the match of line 77
    then runs on to that last brace. *)
Theorem object_then_text (generate_content : pystr -> result pystr)
  (resume_text : pystr) (job_description : option pystr)
  (ws mid suf : pystr) (v : pyobj) :
  generate_content (prompt resume_text job_description)
    = Ok (ws ++ (ch "{" :: mid ++ [ch "}"]) ++ suf) ->
  forallb is_json_ws ws = true ->
  json_loads (ch "{" :: mid ++ [ch "}"]) = Ok v ->
  analyze_resume generate_content resume_text job_description
  = if existsb (is_char "}") suf then Err JSONDecodeError else Ok v.
Proof.
  intros Hg Hws Hv.
  rewrite (analyze_resume_reply _ _ _ _ Hg), parse_reply_steps.
  rewrite (json_loads_padded_object ws _ suf v Hws Hv).
  destruct (existsb (is_char "}") suf) eqn:Hb.
  - pose proof (skip_ws_has_brace _ Hb) as Hne.
    destruct (skip_ws suf) as [|x y]; [now elim Hne|].
    destruct (upto_last_some _ _ Hb) as [m Hm].
    destruct (upto_last_split _ _ _ Hm) as (a & b & -> & _ & Hb').
    assert (Hshape : ws ++ (ch "{" :: mid ++ [ch "}"]) ++ a ++ ch "}" :: b
                     = ws ++ (ch "{" :: (mid ++ ch "}" :: a) ++ [ch "}"]) ++ b).
    { cbn [app]. now rewrite <- !app_assoc. }
    rewrite Hshape.
    rewrite (first_brace_to_last_brace_wrapped ws (mid ++ ch "}" :: a) b
               (json_ws_no_brace _ Hws) Hb').
    assert (Hm2 : ch "{" :: (mid ++ ch "}" :: a) ++ [ch "}"]
                  = [] ++ (ch "{" :: mid ++ [ch "}"]) ++ (a ++ [ch "}"])).
    { cbn [app]. now rewrite <- !app_assoc. }
    rewrite Hm2, (json_loads_padded_object [] _ (a ++ [ch "}"]) v eq_refl Hv).
    assert (Hne2 : skip_ws (a ++ [ch "}"]) <> []).
    { apply skip_ws_has_brace. rewrite existsb_app. cbn.
      now rewrite orb_true_r. }
    destruct (skip_ws (a ++ [ch "}"])); [now elim Hne2|reflexivity].
  - destruct (skip_ws suf) as [|x y]; [reflexivity|].
    now rewrite (first_brace_to_last_brace_wrapped ws mid suf
                   (json_ws_no_brace _ Hws) Hb).
Qed.

Lemma object_then_text_witness :
  analyze_resume
    (replies ([] ++ (ch "{" :: good_fields ++ [ch "}"]) ++ (nl ++ py "Thanks.")))
    sample_resume None = Ok good_record
  /\ analyze_resume
       (replies ([] ++ (ch "{" :: good_fields ++ [ch "}"])
                 ++ (nl ++ ch "{" :: good_fields ++ [ch "}"])))
       sample_resume None = Err JSONDecodeError.
Proof.
  assert (H : json_loads (ch "{" :: good_fields ++ [ch "}"]) = Ok good_record)
    by (vm_compute; reflexivity).
  split.
  - apply (object_then_text
             (replies ([] ++ (ch "{" :: good_fields ++ [ch "}"])
                       ++ (nl ++ py "Thanks.")))
             sample_resume None [] good_fields (nl ++ py "Thanks.") good_record
             eq_refl eq_refl H).
  - apply (object_then_text
             (replies ([] ++ (ch "{" :: good_fields ++ [ch "}"])
                       ++ (nl ++ ch "{" :: good_fields ++ [ch "}"])))
             sample_resume None [] good_fields
             (nl ++ ch "{" :: good_fields ++ [ch "}"]) good_record
             eq_refl eq_refl H).
Defined.

(** X12. A reply that opens with prose (its first visible character cannot
    start a JSON value: an introductory sentence, a markdown fence) and
    holds a valid brace-delimited JSON text with no opening brace before
    it: [analyze_resume] returns the record of that text when no closing
    brace follows it, and raises [JSONDecodeError] when one does. *)
Theorem prose_then_object_then_text
  (generate_content : pystr -> result pystr) (resume_text : pystr)
  (job_description : option pystr) (pre mid suf : pystr) (v : pyobj) :
  generate_content (prompt resume_text job_description)
    = Ok (pre ++ (ch "{" :: mid ++ [ch "}"]) ++ suf) ->
  starts_json_value (skip_ws (pre ++ (ch "{" :: mid ++ [ch "}"]) ++ suf)) = false ->
  existsb (is_char "{") pre = false ->
  json_loads (ch "{" :: mid ++ [ch "}"]) = Ok v ->
  analyze_resume generate_content resume_text job_description
  = if existsb (is_char "}") suf then Err JSONDecodeError else Ok v.
Proof.
  intros Hg Hp Hpre Hv.
  rewrite (analyze_resume_reply _ _ _ _ Hg), parse_reply_steps.
  rewrite (prose_is_not_json _ Hp).
  destruct (existsb (is_char "}") suf) eqn:Hb.
  - destruct (upto_last_some _ _ Hb) as [m Hm].
    destruct (upto_last_split _ _ _ Hm) as (a & b & -> & _ & Hb').
    assert (Hshape : pre ++ (ch "{" :: mid ++ [ch "}"]) ++ a ++ ch "}" :: b
                     = pre ++ (ch "{" :: (mid ++ ch "}" :: a) ++ [ch "}"]) ++ b).
    { cbn [app]. now rewrite <- !app_assoc. }
    rewrite Hshape.
    rewrite (first_brace_to_last_brace_wrapped pre (mid ++ ch "}" :: a) b Hpre Hb').
    assert (Hm2 : ch "{" :: (mid ++ ch "}" :: a) ++ [ch "}"]
                  = [] ++ (ch "{" :: mid ++ [ch "}"]) ++ (a ++ [ch "}"])).
    { cbn [app]. now rewrite <- !app_assoc. }
    rewrite Hm2, (json_loads_padded_object [] _ (a ++ [ch "}"]) v eq_refl Hv).
    assert (Hne2 : skip_ws (a ++ [ch "}"]) <> []).
    { apply skip_ws_has_brace. rewrite existsb_app. cbn.
      now rewrite orb_true_r. }
    destruct (skip_ws (a ++ [ch "}"])); [now elim Hne2|reflexivity].
  - now rewrite (first_brace_to_last_brace_wrapped pre mid suf Hpre Hb).
Qed.

Lemma prose_then_object_then_text_witness :
  analyze_resume
    (replies ((py "```json" ++ nl) ++ (ch "{" :: good_fields ++ [ch "}"])
              ++ (nl ++ py "```")))
    sample_resume (Some sample_job) = Ok good_record
  /\ analyze_resume
       (replies (py "Result: " ++ (ch "{" :: good_fields ++ [ch "}"])
                 ++ py " :-}"))
       sample_resume (Some sample_job) = Err JSONDecodeError.
Proof.
  assert (H : json_loads (ch "{" :: good_fields ++ [ch "}"]) = Ok good_record)
    by (vm_compute; reflexivity).
  split.
  - apply (prose_then_object_then_text
             (replies ((py "```json" ++ nl) ++ (ch "{" :: good_fields ++ [ch "}"])
                       ++ (nl ++ py "```")))
             sample_resume (Some sample_job)
             (py "```json" ++ nl) good_fields (nl ++ py "```") good_record
             eq_refl ltac:(vm_compute; reflexivity) eq_refl H).
  - apply (prose_then_object_then_text
             (replies (py "Result: " ++ (ch "{" :: good_fields ++ [ch "}"])
                       ++ py " :-}"))
             sample_resume (Some sample_job)
             (py "Result: ") good_fields (py " :-}") good_record
             eq_refl ltac:(vm_compute; reflexivity) eq_refl H).
Defined.
